(** * Backup metadata, backup file names and deterministic ids of sealvault

    A shallow embedding of [core/src/backup/metadata.rs] and of the
    entity-creation paths of [core/src/db/models/dapp.rs] and
    [core/src/db/models/account_picture.rs].

    Rust strings are modelled as [string] (sequences of bytes); the file
    names handled here are ASCII, and the regex classes [\d] and
    [[A-Za-z0-9-]] are modelled on ASCII characters. Rust [i64] is modelled
    as [Z] together with the range [i64_min, i64_max]. *)

From Stdlib Require Import ZArith String Ascii List Bool Lia.
From Stdlib Require Import Sorting.Permutation Sorting.Sorted.
From Stdlib Require Import DecimalString DecimalPos DecimalN DecimalZ.
Import ListNotations.

Local Open Scope Z_scope.

(** ** Results and the crate's error type *)

(** Rust's [Result<T, E>]. *)
Inductive result (T E : Type) : Type :=
| Ok (value : T)
| Err (error : E).
Arguments Ok {T E} value.
Arguments Err {T E} error.

(** The [?] operator. *)
Notation "'let?' x := c 'in' k" :=
  (match c with Ok x => k | Err e => Err e end)
  (at level 200, x name, c at level 100, k at level 200).

(** [crate::Error]: the two variants this module constructs, and the
    user-facing variant of the crate. *)
Inductive Error : Type :=
| Fatal (error : string)
| Retriable (error : string)
| User (explanation : string).

Definition is_fatal (e : Error) : bool :=
  match e with Fatal _ => true | _ => false end.

Definition is_retriable (e : Error) : bool :=
  match e with Retriable _ => true | _ => false end.

(** ** [i64]: range, [Display] and [FromStr] *)

Definition i64_min : Z := - 2 ^ 63.
Definition i64_max : Z := 2 ^ 63 - 1.

Definition in_i64 (z : Z) : Prop := i64_min <= z <= i64_max.

(** [core::num::IntErrorKind] for the kinds [i64::from_str] can return. *)
Inductive IntErrorKind : Type :=
| Empty
| InvalidDigit
| PosOverflow
| NegOverflow.

(** [core::num::ParseIntError]. *)
Record ParseIntError : Type := { kind : IntErrorKind }.

(** [impl Display for ParseIntError]. *)
Definition parse_int_error_to_string (e : ParseIntError) : string :=
  match kind e with
  | Empty => "cannot parse integer from empty string"
  | InvalidDigit => "invalid digit found in string"
  | PosOverflow => "number too large to fit in target type"
  | NegOverflow => "number too small to fit in target type"
  end.

(** [char::to_digit(10)] on ASCII. *)
Definition to_digit (c : ascii) : option Z :=
  let n := nat_of_ascii c in
  if (48 <=? n)%nat && (n <=? 57)%nat then Some (Z.of_nat (n - 48)) else None.

(** The digit loop of [i64::from_str_radix(_, 10)]: left to right,
    [result = result * 10 +- digit] with checked arithmetic. *)
Fixpoint parse_digits (is_positive : bool) (acc : Z) (s : string)
  : result Z ParseIntError :=
  match s with
  | EmptyString => Ok acc
  | String c rest =>
      match to_digit c with
      | None => Err {| kind := InvalidDigit |}
      | Some d =>
          if is_positive then
            let v := acc * 10 + d in
            if i64_max <? v then Err {| kind := PosOverflow |}
            else parse_digits is_positive v rest
          else
            let v := acc * 10 - d in
            if v <? i64_min then Err {| kind := NegOverflow |}
            else parse_digits is_positive v rest
      end
  end.

(** [<i64 as FromStr>::from_str]: an optional sign, then at least one
    digit. *)
Definition i64_from_str (s : string) : result Z ParseIntError :=
  match s with
  | EmptyString => Err {| kind := Empty |}
  | String c rest =>
      if ((c =? "+")%char || (c =? "-")%char) && (rest =? "")%string then
        Err {| kind := InvalidDigit |}
      else if (c =? "+")%char then parse_digits true 0 rest
      else if (c =? "-")%char then parse_digits false 0 rest
      else parse_digits true 0 s
  end.

(** [<i64 as Display>::fmt]: decimal, with a leading [-] when negative. *)
Definition i64_to_string (z : Z) : string :=
  NilEmpty.string_of_int (Z.to_int z).

(** ** [BackupVersion] *)

(** [pub struct BackupVersion(i64)]. *)
Record BackupVersion : Type := MkBackupVersion { backup_version_value : Z }.

(** [impl TryFrom<i64> for BackupVersion]. *)
Definition backup_version_try_from (value : Z) : result BackupVersion Error :=
  if value <? 0 then Err (Fatal "Negative backup version")
  else Ok (MkBackupVersion value).

(** [impl FromStr for BackupVersion]. *)
Definition backup_version_from_str (s : string) : result BackupVersion Error :=
  match i64_from_str s with
  | Err err =>
      Err (Retriable ("Failed to parse str to backup version with error '"
                      ++ parse_int_error_to_string err ++ "'"))
  | Ok value => backup_version_try_from value
  end.

(** [#[derive(Display)]]: the inner [i64]. *)
Definition backup_version_to_string (v : BackupVersion) : string :=
  i64_to_string (backup_version_value v).

(** ** The [Display] and [FromStr] traits *)

Class Display (T : Type) := display : T -> string.

(** [FromStr] with its associated error type [Err]. *)
Class FromStr (T : Type) := {
  FromStrErr : Type;
  from_str : string -> result T FromStrErr
}.
Arguments FromStrErr T {_}.

(** [Error: From<E>], used by [?]. *)
Class FromError (E : Type) := error_from : E -> Error.

#[export] Instance Display_i64 : Display Z := i64_to_string.
#[export] Instance FromStr_i64 : FromStr Z :=
  {| FromStrErr := ParseIntError; from_str := i64_from_str |}.
#[export] Instance Display_BackupVersion : Display BackupVersion :=
  backup_version_to_string.
#[export] Instance FromStr_BackupVersion : FromStr BackupVersion :=
  {| FromStrErr := Error; from_str := backup_version_from_str |}.
(** The reflexive [impl From<T> for T]. *)
#[export] Instance FromError_Error : FromError Error := fun e => e.

(** ** [BACKUP_FILE_NAME_REGEX] *)

Local Open Scope string_scope.

(** [[A-Za-z0-9-]] *)
Definition is_name_char (c : ascii) : bool :=
  let n := nat_of_ascii c in
  ((65 <=? n) && (n <=? 90))%nat || ((97 <=? n) && (n <=? 122))%nat
  || ((48 <=? n) && (n <=? 57))%nat || (c =? "-")%char.

(** [0-9]: the digits [i64::from_str] reads, and those it writes. *)
Definition is_ascii_digit (c : ascii) : bool :=
  let n := nat_of_ascii c in ((48 <=? n) && (n <=? 57))%nat.

Local Close Scope string_scope.

(** [\d] of the [regex] crate, Unicode-aware by default: the code points
    of General_Category Decimal_Number ([\p{Nd}]), as ranges; those of
    Unicode 15.0, the tables of the crate since its release 1.7. *)
Definition decimal_number_ranges : list (Z * Z) :=
  [(0x30, 0x39); (0x660, 0x669); (0x6F0, 0x6F9); (0x7C0, 0x7C9);
   (0x966, 0x96F); (0x9E6, 0x9EF); (0xA66, 0xA6F); (0xAE6, 0xAEF);
   (0xB66, 0xB6F); (0xBE6, 0xBEF); (0xC66, 0xC6F); (0xCE6, 0xCEF);
   (0xD66, 0xD6F); (0xDE6, 0xDEF); (0xE50, 0xE59); (0xED0, 0xED9);
   (0xF20, 0xF29); (0x1040, 0x1049); (0x1090, 0x1099); (0x17E0, 0x17E9);
   (0x1810, 0x1819); (0x1946, 0x194F); (0x19D0, 0x19D9); (0x1A80, 0x1A89);
   (0x1A90, 0x1A99); (0x1B50, 0x1B59); (0x1BB0, 0x1BB9); (0x1C40, 0x1C49);
   (0x1C50, 0x1C59); (0xA620, 0xA629); (0xA8D0, 0xA8D9); (0xA900, 0xA909);
   (0xA9D0, 0xA9D9); (0xA9F0, 0xA9F9); (0xAA50, 0xAA59); (0xABF0, 0xABF9);
   (0xFF10, 0xFF19); (0x104A0, 0x104A9); (0x10D30, 0x10D39);
   (0x11066, 0x1106F); (0x110F0, 0x110F9); (0x11136, 0x1113F);
   (0x111D0, 0x111D9); (0x112F0, 0x112F9); (0x11450, 0x11459);
   (0x114D0, 0x114D9); (0x11650, 0x11659); (0x116C0, 0x116C9);
   (0x11730, 0x11739); (0x118E0, 0x118E9); (0x11950, 0x11959);
   (0x11C50, 0x11C59); (0x11D50, 0x11D59); (0x11DA0, 0x11DA9);
   (0x11F50, 0x11F59); (0x16A60, 0x16A69); (0x16AC0, 0x16AC9);
   (0x16B50, 0x16B59); (0x1D7CE, 0x1D7FF); (0x1E140, 0x1E149);
   (0x1E2F0, 0x1E2F9); (0x1E4F0, 0x1E4F9); (0x1E950, 0x1E959);
   (0x1FBF0, 0x1FBF9)].

Definition is_decimal_number (cp : Z) : bool :=
  existsb (fun '(lo, hi) => (lo <=? cp) && (cp <=? hi)) decimal_number_ranges.

Definition byte_value (c : ascii) : Z := Z.of_N (N_of_ascii c).

Definition is_continuation (c : ascii) : bool :=
  (128 <=? byte_value c) && (byte_value c <? 192).

(** The code points of a UTF-8 byte string: the regex runs on the code
    points of a [&str], which is always valid UTF-8. Other byte strings (a
    stray continuation byte, a cut sequence, an overlong form, a surrogate,
    a value past U+10FFFF) give [None]. *)
Fixpoint utf8_decode (s : string) : option (list Z) :=
  match s with
  | EmptyString => Some []
  | String c1 s1 =>
      let b1 := byte_value c1 in
      if b1 <? 128 then option_map (cons b1) (utf8_decode s1)
      else if (194 <=? b1) && (b1 <? 224) then
        match s1 with
        | String c2 s2 =>
            if is_continuation c2
            then option_map (cons ((b1 - 192) * 64 + (byte_value c2 - 128)))
                   (utf8_decode s2)
            else None
        | EmptyString => None
        end
      else if (224 <=? b1) && (b1 <? 240) then
        match s1 with
        | String c2 (String c3 s3) =>
            let cp := ((b1 - 224) * 64 + (byte_value c2 - 128)) * 64
                      + (byte_value c3 - 128) in
            if is_continuation c2 && is_continuation c3 && (2048 <=? cp)
               && negb ((55296 <=? cp) && (cp <=? 57343))
            then option_map (cons cp) (utf8_decode s3)
            else None
        | _ => None
        end
      else if (240 <=? b1) && (b1 <? 245) then
        match s1 with
        | String c2 (String c3 (String c4 s4)) =>
            let cp := (((b1 - 240) * 64 + (byte_value c2 - 128)) * 64
                       + (byte_value c3 - 128)) * 64 + (byte_value c4 - 128) in
            if is_continuation c2 && is_continuation c3 && is_continuation c4
               && (65536 <=? cp) && (cp <=? 1114111)
            then option_map (cons cp) (utf8_decode s4)
            else None
        | _ => None
        end
      else None
  end.

Local Open Scope string_scope.

(** [\d+]: one or more code points of [\d]. *)
Definition plus_decimal (s : string) : bool :=
  match utf8_decode s with
  | Some ((_ :: _) as cps) => forallb is_decimal_number cps
  | _ => false
  end.

Fixpoint all_chars (f : ascii -> bool) (s : string) : bool :=
  match s with
  | EmptyString => true
  | String c rest => f c && all_chars f rest
  end.

(** [class+]: one or more characters of the class. *)
Definition plus (f : ascii -> bool) (s : string) : bool :=
  match s with
  | EmptyString => false
  | _ => all_chars f s
  end.

Fixpoint strip_prefix (pre s : string) : option string :=
  match pre, s with
  | EmptyString, _ => Some s
  | String a pre', String b s' =>
      if (a =? b)%char then strip_prefix pre' s' else None
  | String _ _, EmptyString => None
  end.

Fixpoint strip_suffix (suf s : string) : option string :=
  if (s =? suf)%string then Some EmptyString
  else match s with
       | EmptyString => None
       | String c s' => option_map (String c) (strip_suffix suf s')
       end.

(** The pieces of a string between the [_] characters. *)
Fixpoint split_us (s : string) : list string :=
  match s with
  | EmptyString => [EmptyString]
  | String c rest =>
      let parts := split_us rest in
      if (c =? "_")%char then EmptyString :: parts
      else match parts with
           | [] => [String c EmptyString]
           | p :: ps => String c p :: ps
           end
  end.

(** The named groups of the regex. *)
Record Captures : Type := {
  cap_scheme : string;
  cap_os : string;
  cap_timestamp : string;
  cap_device_id : string;
  cap_version : string
}.

(** [BACKUP_FILE_NAME_REGEX.captures(file_name)] for
    [^sealvault_backup_(?P<scheme>[A-Za-z0-9-]+)_(?P<os>[A-Za-z0-9-]+)_(?P<timestamp>\d+)_(?P<device_id>[A-Za-z0-9-]+)_(?P<version>\d+)\.zip$].
    No group's class contains [_], and in UTF-8 the byte of [_] encodes
    nothing else, so an anchored match cuts the name after the literal
    prefix exactly at its four [_] bytes; [regex_matches]
    below states the regex declaratively and [captures_regex] proves the two
    agree. *)
Definition backup_file_name_captures (file_name : string) : option Captures :=
  match strip_prefix "sealvault_backup_" file_name with
  | None => None
  | Some rest =>
      match split_us rest with
      | [s; o; t; d; vz] =>
          match strip_suffix ".zip" vz with
          | None => None
          | Some v =>
              if plus is_name_char s && plus is_name_char o
                 && plus_decimal t && plus is_name_char d
                 && plus_decimal v
              then Some {| cap_scheme := s; cap_os := o; cap_timestamp := t;
                           cap_device_id := d; cap_version := v |}
              else None
          end
      | _ => None
      end
  end.

(** The regex as a relation between a name and its groups. *)
Definition regex_matches (file_name : string) (c : Captures) : Prop :=
  file_name = "sealvault_backup_" ++ cap_scheme c ++ "_" ++ cap_os c ++ "_"
              ++ cap_timestamp c ++ "_" ++ cap_device_id c ++ "_"
              ++ cap_version c ++ ".zip"
  /\ plus is_name_char (cap_scheme c) = true
  /\ plus is_name_char (cap_os c) = true
  /\ plus_decimal (cap_timestamp c) = true
  /\ plus is_name_char (cap_device_id c) = true
  /\ plus_decimal (cap_version c) = true.

(** [captures.name(name)]: every group of this regex takes part in a match. *)
Definition captures_name (c : Captures) (name : string) : option string :=
  if name =? "scheme" then Some (cap_scheme c)
  else if name =? "os" then Some (cap_os c)
  else if name =? "timestamp" then Some (cap_timestamp c)
  else if name =? "device_id" then Some (cap_device_id c)
  else if name =? "version" then Some (cap_version c)
  else None.

(** [parse_field_from_backup_file_name]. *)
Definition parse_field_from_backup_file_name {T : Type} `{FromStr T}
  `{FromError (FromStrErr T)} (captures : Captures) (name : string)
  : result T Error :=
  match captures_name captures name with
  | None => Err (Fatal ("No " ++ name ++ " in backup file name"))
  | Some group =>
      match from_str group with
      | Ok value => Ok value
      | Err e => Err (error_from e)
      end
  end.

(** ** Backup metadata and file names

    [BackupScheme], [OperatingSystem], [DeviceIdentifier] and [DeviceName]
    are defined elsewhere in the crate; the module uses their [Display] and
    [FromStr] implementations and the [From] conversions of their parse
    errors (and of [ParseIntError]) into [Error], which are kept abstract
    here. *)
Section Metadata.

Context {BackupScheme OperatingSystem DeviceIdentifier DeviceName : Type}.
Context `{Display BackupScheme}.
Context `{Display OperatingSystem} `{FromStr OperatingSystem}
        `{!FromError (FromStrErr OperatingSystem)}.
Context `{Display DeviceIdentifier} `{FromStr DeviceIdentifier}
        `{!FromError (FromStrErr DeviceIdentifier)}.
Context `{!FromError ParseIntError}.

(** [pub struct BackupMetadata]. *)
Record BackupMetadata : Type := {
  backup_scheme : BackupScheme;
  backup_version : BackupVersion;
  timestamp : Z;
  device_id : DeviceIdentifier;
  device_name : DeviceName;
  operating_system : OperatingSystem;
  kdf_nonce : string
}.

(** [struct MetadataFromFileName]. *)
Record MetadataFromFileName : Type := {
  mf_timestamp : Z;
  mf_os : OperatingSystem;
  mf_device_id : DeviceIdentifier;
  mf_backup_version : BackupVersion
}.

(** [impl FromStr for MetadataFromFileName]. *)
Definition metadata_from_file_name (file_name : string)
  : result MetadataFromFileName Error :=
  match backup_file_name_captures file_name with
  | None => Err (Fatal ("Invalid backup file name format: '" ++ file_name ++ "'"))
  | Some captures =>
      let? timestamp := parse_field_from_backup_file_name (T := Z) captures "timestamp" in
      let? os := parse_field_from_backup_file_name (T := OperatingSystem) captures "os" in
      let? device_id := parse_field_from_backup_file_name (T := DeviceIdentifier) captures "device_id" in
      let? backup_version := parse_field_from_backup_file_name (T := BackupVersion) captures "version" in
      Ok {| mf_timestamp := timestamp; mf_os := os; mf_device_id := device_id;
            mf_backup_version := backup_version |}
  end.

(** [get_backup_file_name]. *)
Definition get_backup_file_name (backup_scheme : BackupScheme)
  (os : OperatingSystem) (timestamp : Z) (device_id : DeviceIdentifier)
  (backup_version : BackupVersion) : string :=
  "sealvault_backup_" ++ display backup_scheme ++ "_" ++ display os ++ "_"
  ++ display timestamp ++ "_" ++ display device_id ++ "_"
  ++ display backup_version ++ ".zip".

(** [BackupMetadata::backup_file_name]. *)
Definition backup_file_name (m : BackupMetadata) : string :=
  get_backup_file_name (backup_scheme m) (operating_system m) (timestamp m)
    (device_id m) (backup_version m).

End Metadata.

Local Close Scope string_scope.

(** ** The collaborator types, as the spec describes them

    The witnesses below need concrete [BackupScheme], [OperatingSystem],
    [DeviceIdentifier] and [DeviceName] types; they live outside this part
    of the repository and are modelled here from the spec. *)
Module SpecModel.

Local Open Scope string_scope.

(** Modelled from the spec: [BackupScheme] (crate::backup::backup_scheme),
    whose one current value [V1] is written [v1] in file names. *)
Inductive BackupScheme : Type := V1.

#[global] Instance Display_BackupScheme : Display BackupScheme :=
  fun _ => "v1".

(** Modelled from the spec: [OperatingSystem] (crate::device), whose iOS
    value is written [ios] in file names. *)
Inductive OperatingSystem : Type := Ios.

(** Modelled from the spec: the error of parsing an unknown OS tag. *)
Inductive OsParseError : Type := VariantNotFound.

#[global] Instance Display_OperatingSystem : Display OperatingSystem :=
  fun _ => "ios".
#[global] Instance FromStr_OperatingSystem : FromStr OperatingSystem :=
  {| FromStrErr := OsParseError;
     from_str := fun s => if s =? "ios" then Ok Ios else Err VariantNotFound |}.
(** Modelled from the spec: an unrecognised OS tag fails non-retriably. *)
#[global] Instance FromError_OsParseError : FromError OsParseError :=
  fun _ => Fatal "Unrecognized operating system".

(** Modelled from the spec: [DeviceIdentifier] (crate::device), a string of
    [[A-Za-z0-9-]] characters. *)
Record DeviceIdentifier : Type := { device_identifier : string }.

Inductive DeviceIdParseError : Type := InvalidDeviceId.

#[global] Instance Display_DeviceIdentifier : Display DeviceIdentifier :=
  device_identifier.
#[global] Instance FromStr_DeviceIdentifier : FromStr DeviceIdentifier :=
  {| FromStrErr := DeviceIdParseError;
     from_str := fun s => if plus is_name_char s
                          then Ok {| device_identifier := s |}
                          else Err InvalidDeviceId |}.
#[global] Instance FromError_DeviceIdParseError : FromError DeviceIdParseError :=
  fun _ => Fatal "Invalid device identifier".

(** Modelled from the spec: [DeviceName] (crate::device), a display string. *)
Record DeviceName : Type := { device_name_str : string }.

(** Modelled from the spec: a timestamp field that is not decimal fails
    non-retriably. *)
#[global] Instance FromError_ParseIntError : FromError ParseIntError :=
  fun e => Fatal ("Failed to parse integer: " ++ parse_int_error_to_string e).

End SpecModel.

(** ** JSON: serde's data model, the canonical writer, derived impls *)

Local Open Scope string_scope.

(** A JSON value as serde_json sees it; integers are kept exactly (as the
    [u64] or [i64] serde_json stores), floats by their text. *)
#[local] Set Warnings "-register-all".
Inductive JValue : Type :=
| JNull
| JBool (b : bool)
| JNumber (n : Z)
| JFloat (repr : string)
| JString (s : string)
| JArray (items : list JValue)
| JObject (entries : list (string * JValue)).

Class Serialize (T : Type) := serialize : T -> JValue.

#[export] Instance Serialize_i64 : Serialize Z := JNumber.
#[export] Instance Serialize_string : Serialize string := JString.
(** [#[serde(into = "i64")]]. *)
#[export] Instance Serialize_BackupVersion : Serialize BackupVersion :=
  fun v => JNumber (backup_version_value v).

Definition quote : ascii := ascii_of_nat 34.
Definition backslash : ascii := ascii_of_nat 92.

(** String escaping of [olpc_cjson::CanonicalFormatter]: OLPC canonical
    JSON escapes only the quotation mark and the backslash, every other
    byte is written as it is. *)
Fixpoint escape (s : string) : string :=
  match s with
  | EmptyString => EmptyString
  | String c rest =>
      if (c =? quote)%char then String backslash (String quote (escape rest))
      else if (c =? backslash)%char
      then String backslash (String backslash (escape rest))
      else String c (escape rest)
  end.

Definition json_string (s : string) : string :=
  String quote (escape s ++ String quote EmptyString).

(** [BTreeMap::insert] on the serialized key bytes: entries stay sorted by
    key and a repeated key keeps the last value. *)
Fixpoint btree_insert (k v : string) (m : list (string * string))
  : list (string * string) :=
  match m with
  | [] => [(k, v)]
  | (k', v') :: rest =>
      match String.compare k k' with
      | Lt => (k, v) :: m
      | Eq => (k, v) :: rest
      | Gt => (k', v') :: btree_insert k v rest
      end
  end.

Definition btree_of (kvs : list (string * string)) : list (string * string) :=
  fold_left (fun m '(k, v) => btree_insert k v m) kvs [].

(** [serde_json::Serializer::with_formatter(_, CanonicalFormatter::new())]:
    objects are written with their keys sorted bytewise, no whitespace, and
    floats are refused. *)
Fixpoint write_canonical (v : JValue) : option string :=
  match v with
  | JNull => Some "null"
  | JBool b => Some (if b then "true" else "false")
  | JNumber n => Some (i64_to_string n)
  | JFloat _ => None
  | JString s => Some (json_string s)
  | JArray items =>
      let fix go (l : list JValue) : option (list string) :=
        match l with
        | [] => Some []
        | x :: xs =>
            match write_canonical x, go xs with
            | Some a, Some b => Some (a :: b)
            | _, _ => None
            end
        end in
      option_map (fun l => "[" ++ String.concat "," l ++ "]") (go items)
  | JObject entries =>
      let fix go (l : list (string * JValue)) : option (list (string * string)) :=
        match l with
        | [] => Some []
        | (k, x) :: xs =>
            match write_canonical x, go xs with
            | Some a, Some b => Some ((json_string k, a) :: b)
            | _, _ => None
            end
        end in
      option_map
        (fun kvs => "{" ++ String.concat ","
                      (map (fun '(k, a) => k ++ ":" ++ a) (btree_of kvs)) ++ "}")
        (go entries)
  end.

(** [serde_json::Error] as raised by deserialization. *)
Inductive DeError : Type :=
| DeCustom (e : Error)
| DeInvalidType
| DeInvalidValue
| DeInvalidLength (len : nat)
| DeMissingField (field : string)
| DeDuplicateField (field : string).

Class Deserialize (T : Type) := deserialize : JValue -> result T DeError.

(** [<i64 as Deserialize>]: an integer in range. *)
#[export] Instance Deserialize_i64 : Deserialize Z :=
  fun v => match v with
           | JNumber n => if ((i64_min <=? n) && (n <=? i64_max))%Z then Ok n
                          else Err DeInvalidValue
           | _ => Err DeInvalidType
           end.

#[export] Instance Deserialize_string : Deserialize string :=
  fun v => match v with JString s => Ok s | _ => Err DeInvalidType end.

(** [#[serde(try_from = "i64")]]: an [i64], then [BackupVersion::try_from],
    whose error becomes a custom serde error. *)
#[export] Instance Deserialize_BackupVersion : Deserialize BackupVersion :=
  fun v => let? n := deserialize (T := Z) v in
           match backup_version_try_from n with
           | Ok version => Ok version
           | Err e => Err (DeCustom e)
           end.

Local Close Scope string_scope.

(** ** [BackupMetadata] through serde *)

Section MetadataJson.

Context {BackupScheme OperatingSystem DeviceIdentifier DeviceName : Type}.
Context `{Serialize BackupScheme} `{Serialize OperatingSystem}
        `{Serialize DeviceIdentifier} `{Serialize DeviceName}.
Context `{Deserialize BackupScheme} `{Deserialize OperatingSystem}
        `{Deserialize DeviceIdentifier} `{Deserialize DeviceName}.

Local Open Scope string_scope.

(** [#[derive(Serialize)]]: a map of the fields in declaration order. *)
Definition serialize_backup_metadata (m : @BackupMetadata BackupScheme OperatingSystem DeviceIdentifier DeviceName) : JValue :=
  JObject [("backup_scheme", serialize (backup_scheme m));
           ("backup_version", serialize (backup_version m));
           ("timestamp", serialize (timestamp m));
           ("device_id", serialize (device_id m));
           ("device_name", serialize (device_name m));
           ("operating_system", serialize (operating_system m));
           ("kdf_nonce", serialize (kdf_nonce m))].

(** [BackupMetadata::canonical_json]. *)
Definition canonical_json (m : @BackupMetadata BackupScheme OperatingSystem DeviceIdentifier DeviceName) : result string Error :=
  match write_canonical (serialize_backup_metadata m) with
  | Some buf => Ok buf
  | None => Err (Fatal "Failed to serialize backup metadata.")
  end.

(** The field slots of the derived [visit_map]. *)
Record MetadataSlots : Type := {
  slot_backup_scheme : option BackupScheme;
  slot_backup_version : option BackupVersion;
  slot_timestamp : option Z;
  slot_device_id : option DeviceIdentifier;
  slot_device_name : option DeviceName;
  slot_operating_system : option OperatingSystem;
  slot_kdf_nonce : option string
}.

Definition empty_slots : MetadataSlots :=
  Build_MetadataSlots None None None None None None None.

(** One field of [visit_map]: a repeated field is refused, otherwise the
    value is deserialized into the slot. *)
Definition visit_field {T : Type} `{Deserialize T} (name : string)
    (slot : option T) (v : JValue) : result (option T) DeError :=
  match slot with
  | Some _ => Err (DeDuplicateField name)
  | None => let? x := deserialize v in Ok (Some x)
  end.

Definition visit_entry (s : MetadataSlots) (k : string) (v : JValue)
  : result MetadataSlots DeError :=
  let '(Build_MetadataSlots a b c d e f g) := s in
  if k =? "backup_scheme" then
    let? a := visit_field k a v in Ok (Build_MetadataSlots a b c d e f g)
  else if k =? "backup_version" then
    let? b := visit_field k b v in Ok (Build_MetadataSlots a b c d e f g)
  else if k =? "timestamp" then
    let? c := visit_field k c v in Ok (Build_MetadataSlots a b c d e f g)
  else if k =? "device_id" then
    let? d := visit_field k d v in Ok (Build_MetadataSlots a b c d e f g)
  else if k =? "device_name" then
    let? e := visit_field k e v in Ok (Build_MetadataSlots a b c d e f g)
  else if k =? "operating_system" then
    let? f := visit_field k f v in Ok (Build_MetadataSlots a b c d e f g)
  else if k =? "kdf_nonce" then
    let? g := visit_field k g v in Ok (Build_MetadataSlots a b c d e f g)
  (* unknown fields are ignored ([serde::de::IgnoredAny]) *)
  else Ok s.

Fixpoint visit_entries (s : MetadataSlots) (entries : list (string * JValue))
  : result MetadataSlots DeError :=
  match entries with
  | [] => Ok s
  | (k, v) :: rest => let? s := visit_entry s k v in visit_entries s rest
  end.

Definition required {T : Type} (name : string) (slot : option T)
  : result T DeError :=
  match slot with Some x => Ok x | None => Err (DeMissingField name) end.

(** The derived [visit_map]: missing fields are reported in declaration
    order. *)
Definition visit_map (entries : list (string * JValue))
  : result (@BackupMetadata BackupScheme OperatingSystem DeviceIdentifier DeviceName) DeError :=
  let? s := visit_entries empty_slots entries in
  let? backup_scheme := required "backup_scheme" (slot_backup_scheme s) in
  let? backup_version := required "backup_version" (slot_backup_version s) in
  let? timestamp := required "timestamp" (slot_timestamp s) in
  let? device_id := required "device_id" (slot_device_id s) in
  let? device_name := required "device_name" (slot_device_name s) in
  let? operating_system := required "operating_system" (slot_operating_system s) in
  let? kdf_nonce := required "kdf_nonce" (slot_kdf_nonce s) in
  Ok {| backup_scheme := backup_scheme; backup_version := backup_version;
        timestamp := timestamp; device_id := device_id;
        device_name := device_name; operating_system := operating_system;
        kdf_nonce := kdf_nonce |}.

(** The derived [visit_seq]: the seven fields in declaration order, and
    [serde_json] refuses a longer array. *)
Definition visit_seq (items : list JValue) : result (@BackupMetadata BackupScheme OperatingSystem DeviceIdentifier DeviceName) DeError :=
  match items with
  | [a; b; c; d; e; f; g] =>
      let? backup_scheme := deserialize a in
      let? backup_version := deserialize b in
      let? timestamp := deserialize c in
      let? device_id := deserialize d in
      let? device_name := deserialize e in
      let? operating_system := deserialize f in
      let? kdf_nonce := deserialize g in
      Ok {| backup_scheme := backup_scheme; backup_version := backup_version;
            timestamp := timestamp; device_id := device_id;
            device_name := device_name; operating_system := operating_system;
            kdf_nonce := kdf_nonce |}
  | _ => Err (DeInvalidLength (List.length items))
  end.

(** [#[derive(Deserialize)]] for [BackupMetadata], as [serde_json] drives
    it: a JSON object goes to [visit_map], an array to [visit_seq]. *)
Definition deserialize_backup_metadata (v : JValue) : result (@BackupMetadata BackupScheme OperatingSystem DeviceIdentifier DeviceName) DeError :=
  match v with
  | JObject entries => visit_map entries
  | JArray items => visit_seq items
  | _ => Err DeInvalidType
  end.

End MetadataJson.

(** ** Shapes of the canonical output *)

Local Open Scope string_scope.

(** The canonical JSON of a [BackupMetadata] whose fields are written as
    [v1], ..., [v7]: keys in bytewise order, no whitespace. *)
Definition metadata_layout (v1 v2 v3 v4 v5 v6 v7 : string) : string :=
  "{" ++ json_string "backup_scheme" ++ ":" ++ v1 ++ ","
  ++ json_string "backup_version" ++ ":" ++ v2 ++ ","
  ++ json_string "device_id" ++ ":" ++ v3 ++ ","
  ++ json_string "device_name" ++ ":" ++ v4 ++ ","
  ++ json_string "kdf_nonce" ++ ":" ++ v5 ++ ","
  ++ json_string "operating_system" ++ ":" ++ v6 ++ ","
  ++ json_string "timestamp" ++ ":" ++ v7 ++ "}".

(** What [escape] writes for one character. *)
Definition escape_char (c : ascii) : string :=
  if (c =? quote)%char then String backslash (String quote EmptyString)
  else if (c =? backslash)%char then String backslash (String backslash EmptyString)
  else String c EmptyString.

(** The characters of a written JSON integer. *)
Definition is_number_char (c : ascii) : bool :=
  is_ascii_digit c || (c =? "-")%char.

Local Close Scope string_scope.

(** Modelled from the spec: the serde forms of the device types, a unit
    variant as its tag and a string newtype as its string. *)
Module SpecModelSerde.

Import SpecModel.
Local Open Scope string_scope.

#[global] Instance Serialize_BackupScheme : Serialize BackupScheme :=
  fun _ => JString "v1".
#[global] Instance Serialize_OperatingSystem : Serialize OperatingSystem :=
  fun _ => JString "ios".
#[global] Instance Serialize_DeviceIdentifier : Serialize DeviceIdentifier :=
  fun d => JString (device_identifier d).
#[global] Instance Serialize_DeviceName : Serialize DeviceName :=
  fun d => JString (device_name_str d).

#[global] Instance Deserialize_BackupScheme : Deserialize BackupScheme :=
  fun v => match v with
           | JString s => if s =? "v1" then Ok V1 else Err DeInvalidValue
           | _ => Err DeInvalidType
           end.
#[global] Instance Deserialize_OperatingSystem : Deserialize OperatingSystem :=
  fun v => match v with
           | JString s => if s =? "ios" then Ok Ios else Err DeInvalidValue
           | _ => Err DeInvalidType
           end.
#[global] Instance Deserialize_DeviceIdentifier : Deserialize DeviceIdentifier :=
  fun v => match v with
           | JString s => Ok {| device_identifier := s |}
           | _ => Err DeInvalidType
           end.
#[global] Instance Deserialize_DeviceName : Deserialize DeviceName :=
  fun v => match v with
           | JString s => Ok {| device_name_str := s |}
           | _ => Err DeInvalidType
           end.

End SpecModelSerde.

(** ** [last_uploaded_backup] *)

(** [Default]. *)
Class Default (T : Type) := default : T.

Section LastUploaded.

Context {BackupScheme OperatingSystem DeviceIdentifier : Type}.
Context `{Display BackupScheme} `{Display OperatingSystem}
        `{Display DeviceIdentifier} `{Default OperatingSystem}.
(** [BackupScheme::V1]. *)
Context (V1 : BackupScheme).
(** [chrono::DateTime], [utils::parse_rfc3339_timestamp] and
    [DateTime::timestamp]. *)
Context {DateTime : Type}.
Context (parse_rfc3339_timestamp : string -> result DateTime Error).
Context (datetime_timestamp : DateTime -> Z).

(** Modelled from the spec: a transaction connection, from which
    [LocalSettings] reads the recorded backup timestamp (an RFC3339
    string, if a backup was made) and the backup version; each read can
    fail. *)
Record TxConn : Type := {
  fetch_backup_timestamp : result (option string) Error;
  fetch_backup_version : result BackupVersion Error
}.

(** Modelled from the spec: the connection pool; getting a connection and
    committing can fail. *)
Record ConnectionPool : Type := {
  pool_connection : result TxConn Error;
  pool_commit : result unit Error
}.

(** Modelled from the spec: [ConnectionPool::deferred_transaction] runs the
    closure on a connection and commits when it succeeds. *)
Definition deferred_transaction {A : Type} (pool : ConnectionPool)
    (f : TxConn -> result A Error) : result A Error :=
  let? tx_conn := pool_connection pool in
  let? r := f tx_conn in
  let? _ := pool_commit pool in
  Ok r.

(** Modelled from the spec: the [CoreResourcesI] collaborators that
    [last_uploaded_backup] uses; the backup storage answers [is_uploaded]
    for a file name. *)
Record CoreResources : Type := {
  connection_pool : ConnectionPool;
  resources_device_id : DeviceIdentifier;
  is_uploaded : string -> bool
}.

(** The closure of the transaction. *)
Definition fetch_backup_state (tx_conn : TxConn)
  : result (BackupVersion * option string) Error :=
  let? timestamp := fetch_backup_timestamp tx_conn in
  let? backup_version := fetch_backup_version tx_conn in
  Ok (backup_version, timestamp).

(** [last_uploaded_backup], with the file names it asks the backup storage
    about. *)
Definition last_uploaded_backup (resources : CoreResources)
  : result (option Z) Error * list string :=
  match deferred_transaction (connection_pool resources) fetch_backup_state with
  | Err e => (Err e, [])
  | Ok (backup_version, datestamp) =>
      match datestamp with
      | None => (Ok None, [])
      | Some datestamp =>
          match parse_rfc3339_timestamp datestamp with
          | Err e => (Err e, [])
          | Ok datetime =>
              let timestamp := datetime_timestamp datetime in
              let os : OperatingSystem := default in
              let backup_file_name :=
                get_backup_file_name V1 os timestamp
                  (resources_device_id resources) backup_version in
              let uploaded := is_uploaded resources backup_file_name in
              (if uploaded then Ok (Some timestamp) else Ok None,
               [backup_file_name])
          end
      end
  end.

End LastUploaded.

(** Modelled from the spec: the OS tag defaults to the host's detected
    platform, iOS here. *)
Module SpecModelDefault.

#[global] Instance Default_OperatingSystem : Default SpecModel.OperatingSystem :=
  SpecModel.Ios.

End SpecModelDefault.

(** ** Entity creation: [dapp.rs] and [account_picture.rs] *)

(** [EntityName]: the two entities created here. *)
Inductive EntityName : Type :=
| EntityDapp
| EntityAccountPicture.

(** Modelled from the spec: the error the database reports for an insert
    that violates the primary key. *)
Inductive DbError : Type :=
| UniqueViolation (table : string).

(** [struct Dapp]: a row of the [dapps] table. *)
Record Dapp : Type := {
  dapp_deterministic_id : string;
  dapp_identifier : string;
  dapp_url : string;
  dapp_created_at : string;
  dapp_updated_at : option string
}.

(** [struct AccountPicture]: a row of the [profile_pictures] table. *)
Record AccountPicture : Type := {
  picture_deterministic_id : string;
  picture_image_name : option string;
  picture_image_hash : string;
  picture_image : string;
  picture_created_at : string;
  picture_updated_at : option string
}.

(** Modelled from the spec: the two tables, keyed by [deterministic_id]. *)
Record Db : Type := {
  dapps : list Dapp;
  profile_pictures : list AccountPicture
}.

(** [struct DappEntity]. *)
Record DappEntity : Type := {
  entity_identifier : string;
  entity_url : string
}.

(** [struct AccountPictureEntity]. *)
Record AccountPictureEntity : Type := {
  entity_image_hash : string
}.

Definition count_dapps (id : string) (rows : list Dapp) : nat :=
  List.length (filter (fun r => String.eqb (dapp_deterministic_id r) id) rows).

Definition count_pictures (id : string) (rows : list AccountPicture) : nat :=
  List.length (filter (fun r => String.eqb (picture_deterministic_id r) id) rows).

Section EntityCreation.

(** Modelled from the spec: [DeriveDeterministicId::deterministic_id], a
    function of the entity name and the unique columns. *)
Context (deterministic_id : EntityName -> list string -> result string Error).
(** [url::Url] with its origin, [Origin::ascii_serialization] and the
    stored [UrlValue]; [PublicSuffixList::registrable_domain]. *)
Context {Url Origin : Type}.
Context (url_origin : Url -> Origin) (ascii_serialization : Origin -> string)
        (url_value : Url -> string).
Context (registrable_domain : Origin -> result (option string) Error).
(** [Error: From<diesel::result::Error>]. *)
Context (db_error : DbError -> Error).
(** [assets::load_profile_pic] and [utils::blake3_hash]. *)
Context (load_profile_pic : string -> result string Error)
        (blake3_hash : string -> string).

(** [DappEntity::new]. *)
Definition dapp_entity_new (url : Url) : result DappEntity Error :=
  let origin := url_origin url in
  let? registrable_domain := registrable_domain origin in
  let identifier :=
    match registrable_domain with
    | Some d => d
    | None => ascii_serialization origin
    end in
  Ok {| entity_identifier := identifier; entity_url := url_value url |}.

(** [DappEntity::create_if_not_exists]: [insert_into(dapps)] with
    [on_conflict_do_nothing]; [created_at] is [rfc3339_timestamp()]. *)
Definition dapp_entity_create_if_not_exists (entity : DappEntity)
    (created_at : string) (db : Db) : result string Error * Db :=
  match deterministic_id EntityDapp [entity_identifier entity] with
  | Err e => (Err e, db)
  | Ok id =>
      if existsb (fun r => String.eqb (dapp_deterministic_id r) id) (dapps db)
      then (Ok id, db)
      else (Ok id, {| dapps := {| dapp_deterministic_id := id;
                                  dapp_identifier := entity_identifier entity;
                                  dapp_url := entity_url entity;
                                  dapp_created_at := created_at;
                                  dapp_updated_at := None |} :: dapps db;
                      profile_pictures := profile_pictures db |})
  end.

(** [Dapp::create_if_not_exists]. *)
Definition dapp_create_if_not_exists (url : Url) (created_at : string) (db : Db)
  : result string Error * Db :=
  match dapp_entity_new url with
  | Err e => (Err e, db)
  | Ok dapp_entity => dapp_entity_create_if_not_exists dapp_entity created_at db
  end.

(** [AccountPictureEntity::create]: a plain [insert_into(profile_pictures)];
    a row with the same key makes the insert fail. *)
Definition account_picture_entity_create (entity : AccountPictureEntity)
    (image : string) (image_name : option string) (created_at : string) (db : Db)
  : result string Error * Db :=
  match deterministic_id EntityAccountPicture [entity_image_hash entity] with
  | Err e => (Err e, db)
  | Ok id =>
      if existsb (fun r => String.eqb (picture_deterministic_id r) id)
           (profile_pictures db)
      then (Err (db_error (UniqueViolation "profile_pictures")), db)
      else (Ok id, {| dapps := dapps db;
                      profile_pictures :=
                        {| picture_deterministic_id := id;
                           picture_image_name := image_name;
                           picture_image_hash := entity_image_hash entity;
                           picture_image := image;
                           picture_created_at := created_at;
                           picture_updated_at := None |} :: profile_pictures db |})
  end.

(** [AccountPicture::insert_bundled]. *)
Definition account_picture_insert_bundled (image_name : string)
    (created_at : string) (db : Db) : result string Error * Db :=
  match load_profile_pic image_name with
  | Err e => (Err e, db)
  | Ok image =>
      let image_hash := blake3_hash image in
      account_picture_entity_create {| entity_image_hash := image_hash |}
        image (Some image_name) created_at db
  end.

End EntityCreation.

(** ** Helpers of the regex proofs *)

Local Open Scope string_scope.

Definition not_underscore (c : ascii) : bool := negb (c =? "_")%char.

(** [join_us] glues pieces back with [_]. *)
Fixpoint join_us (l : list string) : string :=
  match l with
  | [] => EmptyString
  | [x] => x
  | x :: xs => x ++ String "_" (join_us xs)
  end.

Local Close Scope string_scope.

Section MetadataSlotsInvariant.

Context {BackupScheme OperatingSystem DeviceIdentifier DeviceName : Type}.

Definition slots_nonneg
    (s : @MetadataSlots BackupScheme OperatingSystem DeviceIdentifier DeviceName) : Prop :=
  forall v, slot_backup_version s = Some v -> 0 <= backup_version_value v.

End MetadataSlotsInvariant.

(** ** Sample inputs *)

Local Open Scope string_scope.

Definition sample_metadata (ts : Z) : @BackupMetadata SpecModel.BackupScheme
  SpecModel.OperatingSystem SpecModel.DeviceIdentifier SpecModel.DeviceName :=
  {| backup_scheme := SpecModel.V1;
     backup_version := MkBackupVersion 3;
     timestamp := ts;
     device_id := {| SpecModel.device_identifier := "dev123" |};
     device_name := {| SpecModel.device_name_str := "phone" |};
     operating_system := SpecModel.Ios;
     kdf_nonce := "bm9uY2U=" |}.

(** U+0663 ARABIC-INDIC DIGIT THREE, in UTF-8. *)
Definition arabic_indic_digit_three : string :=
  String (ascii_of_nat 217) (String (ascii_of_nat 163) EmptyString).

Definition parse_backup_file_name (file_name : string) :=
  metadata_from_file_name (OperatingSystem := SpecModel.OperatingSystem)
    (DeviceIdentifier := SpecModel.DeviceIdentifier) file_name.

(** A stand-in RFC3339 parser that knows one date, as unix seconds. *)
Definition sample_parse_rfc3339 (s : string) : result Z Error :=
  if s =? "2023-11-14T22:13:20Z" then Ok 1700000000
  else Err (Fatal "input contains invalid characters").

Definition sample_resources (datestamp : option string)
    (backup_version : result BackupVersion Error) (uploaded : string -> bool)
  : @CoreResources SpecModel.DeviceIdentifier :=
  {| connection_pool :=
       {| pool_connection :=
            Ok {| fetch_backup_timestamp := Ok datestamp;
                  fetch_backup_version := backup_version |};
          pool_commit := Ok tt |};
     resources_device_id := {| SpecModel.device_identifier := "dev123" |};
     is_uploaded := uploaded |}.

Definition sample_last_uploaded_backup :=
  last_uploaded_backup (OperatingSystem := SpecModel.OperatingSystem)
    SpecModel.V1 sample_parse_rfc3339 (fun t => t).

(** Stand-ins for the collaborators: an id that spells the entity and its
    key, URLs that are their own origin and registrable domain, a picture
    whose bytes are its name. *)
Definition sample_deterministic_id (name : EntityName) (keys : list string)
  : result string Error :=
  Ok ((match name with EntityDapp => "dapp:" | EntityAccountPicture => "picture:" end)
      ++ String.concat "," keys).

Definition sample_db_error (e : DbError) : Error :=
  match e with
  | UniqueViolation table =>
      Fatal ("UNIQUE constraint failed: " ++ table ++ ".deterministic_id")
  end.

Definition empty_db : Db := {| dapps := []; profile_pictures := [] |}.

(** A database holding two dapps, each under the id derived from its
    identifier. *)
Definition sample_dapps_db : Db :=
  {| dapps :=
       [{| dapp_deterministic_id := "dapp:https://other.org";
           dapp_identifier := "https://other.org";
           dapp_url := "https://other.org";
           dapp_created_at := "2023-01-01T00:00:00Z";
           dapp_updated_at := None |};
        {| dapp_deterministic_id := "dapp:https://example.com";
           dapp_identifier := "https://example.com";
           dapp_url := "https://example.com";
           dapp_created_at := "2023-06-01T12:00:00Z";
           dapp_updated_at := Some "2023-07-01T12:00:00Z" |}];
     profile_pictures := [] |}.

Definition sample_create_dapp :=
  dapp_create_if_not_exists (Url := string) (Origin := string)
    sample_deterministic_id (fun u => u) (fun o => o) (fun u => u)
    (fun o => Ok (Some o)).

Definition sample_insert_bundled :=
  account_picture_insert_bundled sample_deterministic_id sample_db_error
    (fun name => Ok ("image:" ++ name)) (fun image => image).

Local Close Scope string_scope.

(** ** Queries of [dapp.rs] and [account_picture.rs] *)

(** The columns of [asymmetric_keys] and [profiles] that the queries of
    [dapp.rs] join on: a key belongs to a profile and may be added to a
    dapp ([asymmetric_keys.dapp_id] is nullable). *)
Record AsymmetricKey : Type := {
  key_profile_id : string;
  key_dapp_id : option string
}.

Record Profile : Type := {
  profile_deterministic_id : string
}.

(** [ak::dapp_id.eq(d::deterministic_id.nullable())]: a [NULL] dapp id
    joins no row. *)
Definition key_joins_dapp (k : AsymmetricKey) (d : Dapp) : bool :=
  match key_dapp_id k with
  | Some id => String.eqb id (dapp_deterministic_id d)
  | None => false
  end.

(** [asymmetric_keys::table.inner_join(dapps::table.on(..))]. *)
Definition join_keys_dapps (keys : list AsymmetricKey) (ds : list Dapp)
  : list (AsymmetricKey * Dapp) :=
  flat_map (fun k => map (fun d => (k, d)) (filter (key_joins_dapp k) ds)) keys.

(** [Dapp::list_for_profile]: one row per key of the profile that has been
    added to a stored dapp. *)
Definition list_for_profile (profile_id : string) (keys : list AsymmetricKey)
    (db : Db) : list Dapp :=
  map snd (filter (fun '(k, _) => String.eqb (key_profile_id k) profile_id)
                  (join_keys_dapps keys (dapps db))).

(** The order of [.order((d::updated_at.desc(), d::created_at.desc()))]:
    SQLite sorts [NULL] below every value and compares text bytewise. *)
Definition nullable_compare (a b : option string) : comparison :=
  match a, b with
  | None, None => Eq
  | None, Some _ => Lt
  | Some _, None => Gt
  | Some x, Some y => String.compare x y
  end.

Definition dapp_recency_compare (a b : Dapp) : comparison :=
  match nullable_compare (dapp_updated_at a) (dapp_updated_at b) with
  | Eq => String.compare (dapp_created_at a) (dapp_created_at b)
  | c => c
  end.

(** A descending sort by [dapp_recency_compare]; SQLite leaves the order
    of rows that tie unspecified, the sort keeps them in table order. *)
Fixpoint insert_desc (x : Dapp) (l : list Dapp) : list Dapp :=
  match l with
  | [] => [x]
  | y :: l' =>
      match dapp_recency_compare x y with
      | Lt => y :: insert_desc x l'
      | _ => x :: l
      end
  end.

Fixpoint sort_desc (l : list Dapp) : list Dapp :=
  match l with
  | [] => []
  | x :: l' => insert_desc x (sort_desc l')
  end.

(** [Dapp::list_dapp_ids_desc]: [.limit(limit as i64)] on a [u32]. *)
Definition list_dapp_ids_desc (limit : N) (db : Db) : list string :=
  map dapp_deterministic_id
    (firstn (Z.to_nat (Z.of_N limit)) (sort_desc (dapps db))).

(** Every stored id occurs once: the primary key of the table. *)
Definition dapp_ids_unique (db : Db) : Prop :=
  NoDup (map dapp_deterministic_id (dapps db)).

Definition picture_ids_unique (db : Db) : Prop :=
  NoDup (map picture_deterministic_id (profile_pictures db)).

(** Dapp [a] comes no later than dapp [b] in the order of the query. *)
Definition dapp_ge (a b : Dapp) : Prop := dapp_recency_compare a b <> Lt.

(** [CoreBackupStorageMock::is_uploaded] of the dev server. *)
Definition backup_storage_mock_is_uploaded (_ : string) : bool := false.

Section EntityQueries.

Context (deterministic_id : EntityName -> list string -> result string Error).
Context {Url Origin : Type}.
Context (url_origin : Url -> Origin) (ascii_serialization : Origin -> string)
        (url_value : Url -> string).
Context (registrable_domain : Origin -> result (option string) Error).
(** The [Error] that [From<diesel::result::Error>] makes of
    [diesel::result::Error::NotFound]. *)
Context (not_found : Error).

(** [Dapp::dapp_identifier]. *)
Definition Dapp_dapp_identifier (url : Url) : result string Error :=
  let? dapp_entity :=
    dapp_entity_new url_origin ascii_serialization url_value registrable_domain url in
  Ok (entity_identifier dapp_entity).

(** [Dapp::fetch_dapp_identifier]: [.filter(..).select(d::identifier).first(conn)?]. *)
Definition fetch_dapp_identifier (dapp_id : string) (db : Db) : result string Error :=
  match head (map dapp_identifier
                (filter (fun d => String.eqb (dapp_deterministic_id d) dapp_id)
                        (dapps db))) with
  | Some identifier => Ok identifier
  | None => Err not_found
  end.

(** [AccountPicture::fetch_image]. *)
Definition fetch_image (id : string) (db : Db) : result string Error :=
  match head (map picture_image
                (filter (fun r => String.eqb (picture_deterministic_id r) id)
                        (profile_pictures db))) with
  | Some image => Ok image
  | None => Err not_found
  end.

(** [DappEntity::fetch_id_for_profile]: the keys joined with [profiles] and
    with [dapps], filtered on the profile and the dapp, selecting [true];
    [.first(conn).optional()?] is [None] when no row matches. *)
Definition dapp_entity_fetch_id_for_profile (entity : DappEntity)
    (profile_id : string) (keys : list AsymmetricKey) (profiles : list Profile)
    (db : Db) : result (option string) Error :=
  let? deterministic_id := deterministic_id EntityDapp [entity_identifier entity] in
  let keys_profiles :=
    flat_map (fun k => map (fun p => (k, p))
               (filter (fun p => String.eqb (key_profile_id k)
                                            (profile_deterministic_id p)) profiles))
      keys in
  let rows :=
    flat_map (fun '(k, p) => map (fun d => (k, p, d)) (filter (key_joins_dapp k) (dapps db)))
      keys_profiles in
  let selected :=
    map (fun _ => true)
      (filter (fun '(_, p, d) =>
                 String.eqb (profile_deterministic_id p) profile_id
                 && String.eqb (dapp_deterministic_id d) deterministic_id) rows) in
  let maybe_exists : option bool := head selected in
  match maybe_exists with
  | Some exists_ => if exists_ then Ok (Some deterministic_id) else Ok None
  | None => Ok None
  end.

(** [Dapp::fetch_id_for_profile]. *)
Definition fetch_id_for_profile (url : Url) (profile_id : string)
    (keys : list AsymmetricKey) (profiles : list Profile) (db : Db)
  : result (option string) Error :=
  let? dapp_entity :=
    dapp_entity_new url_origin ascii_serialization url_value registrable_domain url in
  dapp_entity_fetch_id_for_profile dapp_entity profile_id keys profiles db.

(** Each stored dapp's id is the one derived from its identifier, as
    [DappEntity::create_if_not_exists] stores it. *)
Definition dapps_consistent (db : Db) : Prop :=
  Forall (fun r => deterministic_id EntityDapp [dapp_identifier r]
                   = Ok (dapp_deterministic_id r)) (dapps db).

End EntityQueries.

(** The [FIELDS] of the derived [Deserialize] of [BackupMetadata], in
    declaration order. *)
Definition backup_metadata_fields : list string :=
  ["backup_scheme"; "backup_version"; "timestamp"; "device_id";
   "device_name"; "operating_system"; "kdf_nonce"]%string.

Definition is_some {A : Type} (o : option A) : bool :=
  match o with Some _ => true | None => false end.

Section MetadataSlotFilled.

Context {BackupScheme OperatingSystem DeviceIdentifier DeviceName : Type}.

(** Whether [visit_map] has filled the slot of field [k]. *)
Definition slot_filled (k : string)
    (s : @MetadataSlots BackupScheme OperatingSystem DeviceIdentifier DeviceName) : bool :=
  if (k =? "backup_scheme")%string then is_some (slot_backup_scheme s)
  else if (k =? "backup_version")%string then is_some (slot_backup_version s)
  else if (k =? "timestamp")%string then is_some (slot_timestamp s)
  else if (k =? "device_id")%string then is_some (slot_device_id s)
  else if (k =? "device_name")%string then is_some (slot_device_name s)
  else if (k =? "operating_system")%string then is_some (slot_operating_system s)
  else if (k =? "kdf_nonce")%string then is_some (slot_kdf_nonce s)
  else false.

End MetadataSlotFilled.

(** The value of a decimal digit string read left to right from [acc], with
    [result * 10 + digit] ([is_positive]) or [result * 10 - digit]. *)
Fixpoint uint_val (is_positive : bool) (d : Decimal.uint) (acc : Z) : Z :=
  let step k := if is_positive then acc * 10 + k else acc * 10 - k in
  match d with
  | Decimal.Nil => acc
  | Decimal.D0 l => uint_val is_positive l (step 0)
  | Decimal.D1 l => uint_val is_positive l (step 1)
  | Decimal.D2 l => uint_val is_positive l (step 2)
  | Decimal.D3 l => uint_val is_positive l (step 3)
  | Decimal.D4 l => uint_val is_positive l (step 4)
  | Decimal.D5 l => uint_val is_positive l (step 5)
  | Decimal.D6 l => uint_val is_positive l (step 6)
  | Decimal.D7 l => uint_val is_positive l (step 7)
  | Decimal.D8 l => uint_val is_positive l (step 8)
  | Decimal.D9 l => uint_val is_positive l (step 9)
  end.

Lemma uint_val_of_uint_acc (d : Decimal.uint) (acc : positive) :
  Z.pos (Pos.of_uint_acc d acc) = uint_val true d (Z.pos acc).
Proof.
  revert acc; induction d; intros acc; cbn [Pos.of_uint_acc uint_val];
    try reflexivity; rewrite IHd; f_equal; lia.
Qed.

Lemma uint_val_of_uint (d : Decimal.uint) :
  Z.of_N (Pos.of_uint d) = uint_val true d 0.
Proof.
  induction d; simpl; try rewrite uint_val_of_uint_acc; auto.
Qed.

Lemma uint_val_to_uint (n : N) : uint_val true (N.to_uint n) 0 = Z.of_N n.
Proof.
  rewrite <- uint_val_of_uint. f_equal. apply DecimalN.Unsigned.of_to.
Qed.

Lemma uint_val_neg (d : Decimal.uint) (acc : Z) :
  uint_val false d acc = - uint_val true d (- acc).
Proof.
  revert acc; induction d; intros acc; simpl; try lia;
    rewrite IHd; f_equal; f_equal; lia.
Qed.

Lemma uint_val_mono (d : Decimal.uint) (acc : Z) :
  0 <= acc -> acc <= uint_val true d acc.
Proof.
  revert acc; induction d; intros acc Hacc; simpl; try lia;
    match goal with |- _ <= uint_val _ _ ?a => specialize (IHd a) end; lia.
Qed.

Lemma parse_digits_uint_pos (d : Decimal.uint) (acc : Z) :
  0 <= acc -> uint_val true d acc <= i64_max ->
  parse_digits true acc (NilEmpty.string_of_uint d) = Ok (uint_val true d acc).
Proof.
  revert acc; induction d; intros acc H0 Hmax; simpl in *; try reflexivity;
    match goal with |- context [uint_val true _ ?a] =>
      pose proof (uint_val_mono d a ltac:(lia)) end;
    (replace (i64_max <? _) with false by (symmetry; apply Z.ltb_ge; lia));
    apply IHd; lia.
Qed.

Lemma parse_digits_uint_neg (d : Decimal.uint) (acc : Z) :
  acc <= 0 -> i64_min <= uint_val false d acc ->
  parse_digits false acc (NilEmpty.string_of_uint d) = Ok (uint_val false d acc).
Proof.
  revert acc; induction d; intros acc H0 Hmin; simpl in *; try reflexivity;
    rewrite uint_val_neg in Hmin |- *;
    match goal with |- context [uint_val true _ ?a] =>
      pose proof (uint_val_mono d a ltac:(lia)) end;
    (replace (_ <? i64_min) with false by (symmetry; apply Z.ltb_ge; lia));
    rewrite IHd by (rewrite ?uint_val_neg; lia);
    rewrite uint_val_neg; f_equal; f_equal; f_equal; lia.
Qed.

Lemma i64_from_str_uint (d : Decimal.uint) : d <> Decimal.Nil ->
  i64_from_str (NilEmpty.string_of_uint d)
  = parse_digits true 0 (NilEmpty.string_of_uint d).
Proof. destruct d; intros H; [congruence | reflexivity ..]. Qed.

Lemma i64_from_str_neg_uint (d : Decimal.uint) : d <> Decimal.Nil ->
  i64_from_str (String "-" (NilEmpty.string_of_uint d))
  = parse_digits false 0 (NilEmpty.string_of_uint d).
Proof. destruct d; intros H; [congruence | reflexivity ..]. Qed.

(** [i64::from_str] inverts [i64]'s [Display]. *)
Lemma i64_from_str_to_string (z : Z) :
  in_i64 z -> i64_from_str (i64_to_string z) = Ok z.
Proof.
  unfold in_i64, i64_to_string; intros Hz.
  destruct z as [|p|p]; [reflexivity| |];
    pose proof (uint_val_to_uint (N.pos p)) as Hv; simpl in Hv;
    pose proof (DecimalPos.Unsigned.to_uint_nonnil p) as Hnn;
    unfold Z.to_int, NilEmpty.string_of_int.
  - rewrite i64_from_str_uint by exact Hnn.
    rewrite <- Hv. apply parse_digits_uint_pos; lia.
  - rewrite i64_from_str_neg_uint by exact Hnn.
    rewrite parse_digits_uint_neg by (rewrite ?uint_val_neg; simpl Z.opp; lia).
    rewrite uint_val_neg; simpl Z.opp; rewrite Hv; reflexivity.
Qed.

(** ** Integer parsing and display: examples *)

Example i64_from_str_ex1 : i64_from_str "1700000000" = Ok 1700000000.
Proof. reflexivity. Qed.
Example i64_from_str_ex2 : i64_from_str "9223372036854775808"
  = Err {| kind := PosOverflow |}.
Proof. reflexivity. Qed.
Example i64_from_str_ex3 : i64_from_str "-9223372036854775808" = Ok i64_min.
Proof. reflexivity. Qed.
Example i64_to_string_ex : i64_to_string (-42) = "-42"%string.
Proof. reflexivity. Qed.
Example i64_to_string_ex0 : i64_to_string 0 = "0"%string.
Proof. reflexivity. Qed.

(** ** Strings and the regex *)

Section RegexLemmas.

Local Open Scope string_scope.

Lemma string_app_assoc (a b c : string) : (a ++ b) ++ c = a ++ (b ++ c).
Proof. induction a; simpl; congruence. Qed.

Lemma string_app_nil_r (a : string) : a ++ "" = a.
Proof. induction a; simpl; congruence. Qed.

Lemma string_length_app (a b : string) :
  String.length (a ++ b) = (String.length a + String.length b)%nat.
Proof. induction a; simpl; congruence. Qed.

Lemma all_chars_app (f : ascii -> bool) (a b : string) :
  all_chars f (a ++ b) = all_chars f a && all_chars f b.
Proof. induction a; simpl; [reflexivity|]. rewrite IHa. apply andb_assoc. Qed.

Lemma all_chars_impl (f g : ascii -> bool) (s : string) :
  (forall c, f c = true -> g c = true) -> all_chars f s = true -> all_chars g s = true.
Proof.
  intros Hfg; induction s; simpl; [reflexivity|].
  intros H; apply andb_true_iff in H as [H1 H2]. rewrite (Hfg _ H1). auto.
Qed.

Lemma plus_all_chars (f : ascii -> bool) (s : string) :
  plus f s = true -> all_chars f s = true.
Proof. destruct s; simpl; congruence. Qed.

Lemma name_char_not_underscore (c : ascii) :
  is_name_char c = true -> not_underscore c = true.
Proof.
  intros H. destruct (Ascii.eqb_spec c "_") as [->|Hne]; [discriminate H|].
  unfold not_underscore. apply negb_true_iff, Ascii.eqb_neq. exact Hne.
Qed.

Lemma digit_not_underscore (c : ascii) :
  is_ascii_digit c = true -> not_underscore c = true.
Proof.
  intros H. destruct (Ascii.eqb_spec c "_") as [->|Hne]; [discriminate H|].
  unfold not_underscore. apply negb_true_iff, Ascii.eqb_neq. exact Hne.
Qed.

Lemma strip_prefix_app (pre s : string) : strip_prefix pre (pre ++ s) = Some s.
Proof.
  induction pre; destruct s; simpl; rewrite ?Ascii.eqb_refl; auto.
Qed.

Lemma strip_prefix_some (pre s r : string) :
  strip_prefix pre s = Some r -> s = pre ++ r.
Proof.
  revert s; induction pre; intros s; destruct s; simpl; try congruence.
  destruct (Ascii.eqb_spec a a0); [subst|discriminate].
  intros H; rewrite (IHpre _ H); reflexivity.
Qed.

Lemma strip_suffix_some (suf s r : string) :
  strip_suffix suf s = Some r -> s = r ++ suf.
Proof.
  revert r; induction s as [|a s IHs]; intros r H; cbn [strip_suffix] in H.
  - destruct (String.eqb_spec "" suf) as [<-|]; [|discriminate].
    injection H as <-; reflexivity.
  - destruct (String.eqb_spec (String a s) suf) as [<-|].
    + injection H as <-; reflexivity.
    + destruct (strip_suffix suf s) eqn:E; simpl in H; [|discriminate].
      injection H as <-. rewrite (IHs _ eq_refl). reflexivity.
Qed.

Lemma strip_suffix_app (suf v : string) : strip_suffix suf (v ++ suf) = Some v.
Proof.
  induction v as [|a v IHv]; cbn [append].
  - destruct suf; cbn [strip_suffix]; rewrite String.eqb_refl; reflexivity.
  - cbn [strip_suffix].
    destruct (String.eqb_spec (String a (v ++ suf)) suf) as [E|_].
    + exfalso. apply (f_equal String.length) in E. simpl in E.
      rewrite string_length_app in E. lia.
    + rewrite IHv. reflexivity.
Qed.

Lemma split_us_nonnil (s : string) : split_us s <> [].
Proof.
  induction s; simpl; [discriminate|].
  destruct (_ =? _)%char; [discriminate|]. destruct (split_us s); discriminate.
Qed.

Lemma split_us_app (a b : string) :
  split_us (a ++ String "_" b) = app (split_us a) (split_us b).
Proof.
  induction a as [|c a IHa]; simpl; [reflexivity|]. rewrite IHa.
  destruct (_ =? _)%char; [reflexivity|].
  pose proof (split_us_nonnil a) as Hn.
  destruct (split_us a); [congruence|reflexivity].
Qed.

Lemma split_us_single (s : string) :
  all_chars not_underscore s = true -> split_us s = [s].
Proof.
  induction s; simpl; [reflexivity|]. unfold not_underscore at 1.
  intros H; apply andb_true_iff in H as [H1 H2].
  apply negb_true_iff in H1; rewrite H1, IHs by exact H2. reflexivity.
Qed.

Lemma join_split_us (s : string) : join_us (split_us s) = s.
Proof.
  induction s; simpl; [reflexivity|].
  pose proof (split_us_nonnil s) as Hn.
  destruct (Ascii.eqb_spec a "_") as [->|_].
  - destruct (split_us s); [congruence|]. simpl in *. rewrite IHs. reflexivity.
  - destruct (split_us s) as [|p ps]; [congruence|].
    destruct ps; simpl in *; rewrite IHs; reflexivity.
Qed.

Lemma split_us_length (s : string) : (1 <= length (split_us s))%nat.
Proof. pose proof (split_us_nonnil s). destruct (split_us s); simpl; [congruence|lia]. Qed.

Lemma split_us_one (s x : string) : split_us s = [x] -> x = s.
Proof.
  intros H. rewrite <- (join_split_us s), H. reflexivity.
Qed.

End RegexLemmas.

Section RegexMatch.

Local Open Scope string_scope.

Lemma plus_name_not_underscore (s : string) :
  plus is_name_char s = true -> all_chars not_underscore s = true.
Proof.
  intros H. apply plus_all_chars in H.
  exact (all_chars_impl _ _ _ name_char_not_underscore H).
Qed.

Lemma not_underscore_byte (c : ascii) :
  byte_value c <> 95%Z -> not_underscore c = true.
Proof.
  intros H. unfold not_underscore. destruct (c =? "_")%char eqn:E; [|reflexivity].
  apply Ascii.eqb_eq in E. subst c. exfalso. apply H. reflexivity.
Qed.

Lemma continuation_not_underscore (c : ascii) :
  is_continuation c = true -> not_underscore c = true.
Proof.
  unfold is_continuation. intros H. apply andb_true_iff in H as [H _].
  apply Z.leb_le in H. apply not_underscore_byte. lia.
Qed.

(** The byte of [_] only occurs in UTF-8 as the code point [_]. *)
Lemma utf8_decode_no_underscore (s : string) : forall cps,
  utf8_decode s = Some cps -> ~ In 95%Z cps -> all_chars not_underscore s = true.
Proof.
  induction s as [s IH] using (well_founded_induction
    (Wf_nat.well_founded_ltof _ String.length)).
  destruct s as [|c1 s1]; intros cps Hd Hn; [reflexivity|].
  cbn [utf8_decode] in Hd. cbn [all_chars].
  destruct (byte_value c1 <? 128)%Z eqn:E1.
  { destruct (utf8_decode s1) as [cps1|] eqn:Hd1; [|discriminate].
    injection Hd as <-.
    rewrite not_underscore_byte by (intros E; apply Hn; left; congruence).
    apply (IH s1 ltac:(unfold Wf_nat.ltof; cbn; lia) cps1 Hd1). intros H; apply Hn; right; exact H. }
  rewrite not_underscore_byte by (apply Z.ltb_ge in E1; lia). cbn [andb].
  repeat (match type of Hd with
          | (if ?b then _ else _) = _ => destruct b eqn:?
          | (match ?x with EmptyString => _ | String _ _ => _ end) = _ =>
              destruct x
          | option_map _ (utf8_decode ?x) = _ => destruct (utf8_decode x) eqn:?
          end; cbn [option_map] in Hd; try discriminate).
  all: injection Hd as <-;
    repeat match goal with H : (_ && _) = true |- _ =>
             apply andb_true_iff in H as [? ?] end;
    cbn [all_chars];
    repeat match goal with H : is_continuation ?c = true |- _ =>
             rewrite (continuation_not_underscore c H); clear H end;
    cbn [andb];
    (eapply IH; [unfold Wf_nat.ltof; cbn; lia | eassumption | intros Hi; apply Hn; right; exact Hi]).
Qed.

Lemma plus_decimal_not_underscore (s : string) :
  plus_decimal s = true -> all_chars not_underscore s = true.
Proof.
  unfold plus_decimal. destruct (utf8_decode s) as [[|cp cps]|] eqn:Hd;
    try discriminate.
  intros Hall. apply (utf8_decode_no_underscore s _ Hd).
  intros Hin. rewrite forallb_forall in Hall. specialize (Hall _ Hin).
  discriminate Hall.
Qed.

Lemma ascii_digit_code (c : ascii) :
  is_ascii_digit c = true ->
  (byte_value c <? 128)%Z = true /\ is_decimal_number (byte_value c) = true.
Proof.
  destruct c as [[] [] [] [] [] [] [] []]; intros H; try discriminate H;
    split; reflexivity.
Qed.

Lemma ascii_digits_decode (s : string) :
  all_chars is_ascii_digit s = true ->
  exists cps, utf8_decode s = Some cps /\ List.length cps = String.length s /\
              forallb is_decimal_number cps = true.
Proof.
  induction s as [|c s IH]; intros H; [exists []; auto|].
  cbn [all_chars] in H. apply andb_true_iff in H as [Hc Hs].
  destruct (ascii_digit_code c Hc) as [Hb Hdn].
  destruct (IH Hs) as (cps & Hdec & Hlen & Hall).
  exists (byte_value c :: cps). cbn [utf8_decode]. rewrite Hb, Hdec.
  split; [reflexivity|]. split; [cbn; lia|]. cbn [forallb]. rewrite Hdn, Hall.
  reflexivity.
Qed.

(** An ASCII digit string is a [\d+] token. *)
Lemma plus_ascii_digit_decimal (s : string) :
  plus is_ascii_digit s = true -> plus_decimal s = true.
Proof.
  intros H. pose proof (plus_all_chars _ _ H) as Ha.
  destruct (ascii_digits_decode s Ha) as (cps & Hdec & Hlen & Hall).
  unfold plus_decimal. rewrite Hdec.
  destruct cps as [|cp cps]; [|exact Hall].
  destruct s; [discriminate H|discriminate Hlen].
Qed.

(** A [\d+] token starts with no sign. *)
Lemma decimal_not_sign (c : ascii) (rest : string) :
  plus_decimal (String c rest) = true ->
  (c =? "+")%char = false /\ (c =? "-")%char = false.
Proof.
  intros H. split; destruct (_ =? _)%char eqn:E; try reflexivity;
    apply Ascii.eqb_eq in E; subst c; unfold plus_decimal in H;
    cbn [utf8_decode] in H; destruct (utf8_decode rest); discriminate H.
Qed.

Lemma plus_digit_not_underscore (s : string) :
  plus is_ascii_digit s = true -> all_chars not_underscore s = true.
Proof.
  intros H. apply plus_all_chars in H.
  exact (all_chars_impl _ _ _ digit_not_underscore H).
Qed.

Lemma zip_not_underscore (v : string) :
  all_chars not_underscore v = true -> all_chars not_underscore (v ++ ".zip") = true.
Proof. intros H. rewrite all_chars_app, H. reflexivity. Qed.

Lemma app5_singletons {A : Type} (a b c d e : list A) (x1 x2 x3 x4 x5 : A) :
  a <> [] -> b <> [] -> c <> [] -> d <> [] -> e <> [] ->
  app a (app b (app c (app d e))) = [x1; x2; x3; x4; x5] ->
  a = [x1] /\ b = [x2] /\ c = [x3] /\ d = [x4] /\ e = [x5].
Proof.
  intros Ha Hb Hc Hd He H.
  destruct a as [|a1 [|a2 a']]; [congruence| |]; cycle 1.
  { exfalso. apply (f_equal (@length A)) in H. simpl in H.
    rewrite !length_app in H.
    destruct b, c, d, e; simpl in H; try congruence; lia. }
  injection H as <- H.
  destruct b as [|b1 [|b2 b']]; [congruence| |]; cycle 1.
  { exfalso. apply (f_equal (@length A)) in H. simpl in H.
    rewrite !length_app in H. destruct c, d, e; simpl in H; try congruence; lia. }
  injection H as <- H.
  destruct c as [|c1 [|c2 c']]; [congruence| |]; cycle 1.
  { exfalso. apply (f_equal (@length A)) in H. simpl in H.
    rewrite !length_app in H. destruct d, e; simpl in H; try congruence; lia. }
  injection H as <- H.
  destruct d as [|d1 [|d2 d']]; [congruence| |]; cycle 1.
  { exfalso. apply (f_equal (@length A)) in H. simpl in H.
    rewrite !length_app in H. destruct e; simpl in H; try congruence; lia. }
  injection H as <- H. subst e. auto.
Qed.

(** The matcher on a name assembled from five [_]-free pieces. *)
Lemma captures_of_parts (s o t d v : string) :
  all_chars not_underscore s = true -> all_chars not_underscore o = true ->
  all_chars not_underscore t = true -> all_chars not_underscore d = true ->
  all_chars not_underscore v = true ->
  backup_file_name_captures
    ("sealvault_backup_" ++ s ++ "_" ++ o ++ "_" ++ t ++ "_" ++ d ++ "_"
     ++ v ++ ".zip")
  = if plus is_name_char s && plus is_name_char o && plus_decimal t
       && plus is_name_char d && plus_decimal v
    then Some {| cap_scheme := s; cap_os := o; cap_timestamp := t;
                 cap_device_id := d; cap_version := v |}
    else None.
Proof.
  intros Hs Ho Ht Hd Hv. unfold backup_file_name_captures.
  rewrite strip_prefix_app. cbn [append].
  rewrite !split_us_app, (split_us_single s), (split_us_single o),
    (split_us_single t), (split_us_single d), (split_us_single (v ++ ".zip"))
    by auto using zip_not_underscore.
  cbn [app]. rewrite strip_suffix_app. reflexivity.
Qed.

(** [backup_file_name_captures] is the regex: it returns the groups of a
    match, and a name has at most one match. *)
Lemma captures_regex (file_name : string) (c : Captures) :
  backup_file_name_captures file_name = Some c <-> regex_matches file_name c.
Proof.
  split.
  - unfold backup_file_name_captures.
    destruct (strip_prefix _ file_name) as [rest|] eqn:Ep; [|discriminate].
    destruct (split_us rest) as [|x1 [|x2 [|x3 [|x4 [|x5 [|]]]]]] eqn:Es;
      try discriminate.
    destruct (strip_suffix ".zip" x5) as [v|] eqn:Ez; [|discriminate].
    destruct (_ && _) eqn:Eb; [|discriminate].
    intros H; injection H as <-. rewrite !andb_true_iff in Eb.
    unfold regex_matches; cbn [cap_scheme cap_os cap_timestamp cap_device_id
                                 cap_version].
    repeat split; try tauto.
    apply strip_prefix_some in Ep; rewrite Ep. f_equal.
    rewrite <- (join_split_us rest), Es.
    apply strip_suffix_some in Ez; subst x5. reflexivity.
  - destruct c as [s o t d v]; unfold regex_matches;
      cbn [cap_scheme cap_os cap_timestamp cap_device_id cap_version].
    intros (-> & Hs & Ho & Ht & Hd & Hv).
    rewrite captures_of_parts by auto using plus_name_not_underscore,
      plus_decimal_not_underscore.
    rewrite Hs, Ho, Ht, Hd, Hv. reflexivity.
Qed.

Lemma captures_regex_none (file_name : string) :
  backup_file_name_captures file_name = None
  <-> forall c, ~ regex_matches file_name c.
Proof.
  split.
  - intros H c Hm. apply captures_regex in Hm. congruence.
  - intros H. destruct (backup_file_name_captures file_name) as [c|] eqn:E;
      [|reflexivity].
    exfalso. apply (H c). apply captures_regex. exact E.
Qed.

(** A name whose third piece is not a [\d+] token is not matched,
    whatever the other pieces are. *)
Lemma captures_bad_third (s o t d v : string) :
  plus_decimal t = false ->
  backup_file_name_captures
    ("sealvault_backup_" ++ s ++ "_" ++ o ++ "_" ++ t ++ "_" ++ d
     ++ "_" ++ v ++ ".zip") = None.
Proof.
  intros Ht. unfold backup_file_name_captures.
  rewrite strip_prefix_app. cbn [append]. rewrite !split_us_app.
  destruct (app (split_us s) _) as [|x1 [|x2 [|x3 [|x4 [|x5 [|]]]]]] eqn:E;
    try reflexivity.
  apply app5_singletons in E; try apply split_us_nonnil.
  destruct E as (_ & _ & E3 & _ & _).
  apply split_us_one in E3; subst x3.
  destruct (strip_suffix _ _); [|reflexivity].
  rewrite Ht, andb_false_r. reflexivity.
Qed.

End RegexMatch.

Lemma all_digits_uint (d : Decimal.uint) :
  all_chars is_ascii_digit (NilEmpty.string_of_uint d) = true.
Proof. induction d; simpl; auto. Qed.

(** A non-negative [i64] is written as an unsigned decimal. *)
Lemma i64_to_string_nonneg (z : Z) :
  0 <= z -> plus is_ascii_digit (i64_to_string z) = true.
Proof.
  intros Hz. unfold i64_to_string. destruct z as [|p|p]; [reflexivity| |lia].
  unfold Z.to_int, NilEmpty.string_of_int.
  pose proof (all_digits_uint (Pos.to_uint p)) as H.
  pose proof (DecimalPos.Unsigned.to_uint_nonnil p) as Hnn.
  destruct (Pos.to_uint p); [congruence| exact H ..].
Qed.

(** A negative [i64] is written as [-] and the decimal of its opposite. *)
Lemma i64_to_string_neg (z : Z) :
  z < 0 -> i64_to_string z = String "-" (i64_to_string (- z)).
Proof.
  intros Hz. unfold i64_to_string. destruct z as [|p|p]; try lia. reflexivity.
Qed.

Lemma i64_to_string_negative_not_digits (z : Z) :
  z < 0 -> plus is_ascii_digit (i64_to_string z) = false.
Proof. intros Hz. rewrite (i64_to_string_neg z Hz). reflexivity. Qed.

Lemma utf8_decode_ascii (c : ascii) (rest : string) :
  (byte_value c <? 128)%Z = true ->
  utf8_decode (String c rest) = option_map (cons (byte_value c)) (utf8_decode rest).
Proof. intros H. cbn [utf8_decode]. rewrite H. reflexivity. Qed.

(** The [-] of a negative [i64] is no [\d]. *)
Lemma i64_to_string_negative_not_decimal (z : Z) :
  z < 0 -> plus_decimal (i64_to_string z) = false.
Proof.
  intros Hz. rewrite (i64_to_string_neg z Hz). unfold plus_decimal.
  rewrite utf8_decode_ascii by reflexivity.
  destruct (utf8_decode _); reflexivity.
Qed.

(** ** [BackupVersion] *)

Lemma parse_digits_nonneg (s : string) (acc z : Z) :
  0 <= acc -> parse_digits true acc s = Ok z -> 0 <= z.
Proof.
  revert acc; induction s as [|c s IHs]; intros acc Hacc H; simpl in H.
  - injection H as <-; exact Hacc.
  - destruct (to_digit c) as [d|] eqn:Ed; [|discriminate].
    assert (0 <= d).
    { unfold to_digit in Ed. destruct (_ && _); [|discriminate].
      injection Ed as <-. lia. }
    destruct (i64_max <? acc * 10 + d); [discriminate|].
    apply (IHs (acc * 10 + d)); [lia | exact H].
Qed.

(** A [\d+] token of the regex starts with no sign, so it parses, if at
    all, to a non-negative [i64]. *)
Lemma i64_from_str_decimal_nonneg (s : string) (z : Z) :
  plus_decimal s = true -> i64_from_str s = Ok z -> 0 <= z.
Proof.
  destruct s as [|c rest]; [discriminate|]. intros Hs.
  destruct (decimal_not_sign c rest Hs) as [Hp Hm].
  unfold i64_from_str. rewrite Hp, Hm. cbn [orb andb].
  apply parse_digits_nonneg. lia.
Qed.

(** Claim C4: [BackupVersion::try_from(n)] fails, with a non-retriable
    [Fatal] error, exactly when [n < 0], and otherwise wraps exactly [n];
    [BackupVersion::from_str(s)] fails with a [Retriable] error when [s] is
    not an [i64] literal, and otherwise is [try_from] of the parsed value,
    so a negative literal fails non-retriably. *)
Theorem backup_version_conversions :
  (forall n : Z,
      (exists e, backup_version_try_from n = Err e /\ is_fatal e = true)
      <-> n < 0)
  /\ (forall n : Z, 0 <= n -> backup_version_try_from n = Ok (MkBackupVersion n))
  /\ (forall s err, i64_from_str s = Err err ->
        exists e, backup_version_from_str s = Err e /\ is_retriable e = true)
  /\ (forall s n, i64_from_str s = Ok n ->
        backup_version_from_str s = backup_version_try_from n)
  /\ (forall s n, i64_from_str s = Ok n -> n < 0 ->
        exists e, backup_version_from_str s = Err e /\ is_fatal e = true).
Proof.
  unfold backup_version_try_from, backup_version_from_str.
  split; [|split; [|split; [|split]]].
  - intros n. split.
    + intros [e [H _]]. destruct (Z.ltb_spec n 0); [lia|discriminate].
    + intros Hn. destruct (Z.ltb_spec n 0); [|lia]. eexists; split; reflexivity.
  - intros n Hn. destruct (Z.ltb_spec n 0); [lia|reflexivity].
  - intros s err ->. eexists; split; reflexivity.
  - intros s n ->. reflexivity.
  - intros s n -> Hn. cbv iota beta. unfold backup_version_try_from.
    rewrite (proj2 (Z.ltb_lt n 0) Hn).
    eexists; split; reflexivity.
Qed.

(** ** File names of backups *)

Lemma captures_name_timestamp (c : Captures) :
  captures_name c "timestamp"%string = Some (cap_timestamp c).
Proof. reflexivity. Qed.
Lemma captures_name_os (c : Captures) :
  captures_name c "os"%string = Some (cap_os c).
Proof. reflexivity. Qed.
Lemma captures_name_device_id (c : Captures) :
  captures_name c "device_id"%string = Some (cap_device_id c).
Proof. reflexivity. Qed.
Lemma captures_name_version (c : Captures) :
  captures_name c "version"%string = Some (cap_version c).
Proof. reflexivity. Qed.

Lemma from_str_i64 (s : string) : from_str (T := Z) s = i64_from_str s.
Proof. reflexivity. Qed.
Lemma from_str_backup_version (s : string) :
  from_str (T := BackupVersion) s = backup_version_from_str s.
Proof. reflexivity. Qed.

Section FileNames.

Local Open Scope string_scope.

Context {BackupScheme OperatingSystem DeviceIdentifier DeviceName : Type}.
Context `{Display BackupScheme}.
Context `{Display OperatingSystem} `{FromStr OperatingSystem}
        `{!FromError (FromStrErr OperatingSystem)}.
Context `{Display DeviceIdentifier} `{FromStr DeviceIdentifier}
        `{!FromError (FromStrErr DeviceIdentifier)}.
Context `{!FromError ParseIntError}.

(** Claim C1: for a valid [m] (its timestamp a non-negative [i64], its
    version a non-negative [i64], its scheme, OS and device id written as
    [[A-Za-z0-9-]+] tokens that the OS and device-id parsers read back),
    parsing [backup_file_name m] succeeds and returns exactly the
    timestamp, operating system, device id and backup version of [m]. *)
Theorem backup_file_name_round_trip
  (m : @BackupMetadata BackupScheme OperatingSystem DeviceIdentifier DeviceName) :
  0 <= timestamp m <= i64_max ->
  0 <= backup_version_value (backup_version m) <= i64_max ->
  plus is_name_char (display (backup_scheme m)) = true ->
  plus is_name_char (display (operating_system m)) = true ->
  from_str (display (operating_system m)) = Ok (operating_system m) ->
  plus is_name_char (display (device_id m)) = true ->
  from_str (display (device_id m)) = Ok (device_id m) ->
  metadata_from_file_name (OperatingSystem := OperatingSystem)
    (DeviceIdentifier := DeviceIdentifier) (backup_file_name m)
  = Ok {| mf_timestamp := timestamp m; mf_os := operating_system m;
          mf_device_id := device_id m; mf_backup_version := backup_version m |}.
Proof.
  intros Hts Hv Hs Ho Hop Hd Hdp.
  destruct m as [scheme [v] ts dev name os nonce];
    cbn [backup_scheme backup_version timestamp device_id operating_system
         backup_version_value] in *.
  unfold metadata_from_file_name, backup_file_name, get_backup_file_name;
    cbn [backup_scheme backup_version timestamp device_id operating_system].
  assert (Hts' : plus_decimal (i64_to_string ts) = true)
    by (apply plus_ascii_digit_decimal, i64_to_string_nonneg; lia).
  assert (Hv' : plus_decimal (i64_to_string v) = true)
    by (apply plus_ascii_digit_decimal, i64_to_string_nonneg; lia).
  unfold display at 3 5, Display_i64, Display_BackupVersion,
    backup_version_to_string; cbn [backup_version_value].
  rewrite captures_of_parts by auto using plus_name_not_underscore,
    plus_decimal_not_underscore.
  rewrite Hs, Ho, Hts', Hd, Hv'; cbn [andb].
  unfold parse_field_from_backup_file_name.
  rewrite captures_name_timestamp, captures_name_os, captures_name_device_id,
    captures_name_version;
    cbn [cap_timestamp cap_os cap_device_id cap_version].
  rewrite from_str_i64, i64_from_str_to_string
    by (unfold in_i64, i64_min, i64_max in *; lia).
  rewrite Hop, Hdp, from_str_backup_version.
  unfold backup_version_from_str.
  rewrite i64_from_str_to_string by (unfold in_i64, i64_min, i64_max in *; lia).
  unfold backup_version_try_from.
  replace (v <? 0)%Z with false by (symmetry; apply Z.ltb_ge; lia).
  reflexivity.
Qed.

(** Claim C6 (amended): [backup_file_name m] is ["sealvault_backup_"], the
    scheme, the OS, the timestamp, the device id and the version, each in
    its [Display] form, separated by single [_] and followed by [".zip"];
    the version, non-negative by construction, is an unsigned decimal,
    while the [i64] timestamp is a signed decimal: unsigned when
    non-negative, and [-] followed by the decimal of its opposite when
    negative. *)
Theorem backup_file_name_format
  (m : @BackupMetadata BackupScheme OperatingSystem DeviceIdentifier DeviceName) :
  backup_file_name m
  = "sealvault_backup_" ++ display (backup_scheme m) ++ "_"
    ++ display (operating_system m) ++ "_" ++ i64_to_string (timestamp m)
    ++ "_" ++ display (device_id m) ++ "_"
    ++ i64_to_string (backup_version_value (backup_version m)) ++ ".zip"
  /\ ((0 <= timestamp m)%Z ->
      plus is_ascii_digit (i64_to_string (timestamp m)) = true)
  /\ ((timestamp m < 0)%Z ->
      i64_to_string (timestamp m) = String "-" (i64_to_string (- timestamp m)))
  /\ ((0 <= backup_version_value (backup_version m))%Z ->
      plus is_ascii_digit
        (i64_to_string (backup_version_value (backup_version m))) = true).
Proof.
  split; [reflexivity|].
  split; [apply i64_to_string_nonneg|].
  split; [apply i64_to_string_neg|apply i64_to_string_nonneg].
Qed.

(** Claim C8: when the timestamp of [m] is negative, parsing
    [backup_file_name m] fails: the [-] of the timestamp is outside the
    [\d+] of its group, so the name does not match the pattern and the
    error is the non-retriable invalid-format one. *)
Theorem backup_file_name_negative_timestamp_rejected
  (m : @BackupMetadata BackupScheme OperatingSystem DeviceIdentifier DeviceName) :
  (timestamp m < 0)%Z ->
  metadata_from_file_name (OperatingSystem := OperatingSystem)
    (DeviceIdentifier := DeviceIdentifier) (backup_file_name m)
  = Err (Fatal ("Invalid backup file name format: '" ++ backup_file_name m ++ "'")).
Proof.
  intros Hts. unfold metadata_from_file_name.
  unfold backup_file_name at 1, get_backup_file_name.
  rewrite captures_bad_third; [reflexivity|].
  apply i64_to_string_negative_not_decimal; exact Hts.
Qed.

(** Claim C5 (amended): [MetadataFromFileName::from_str] fails with a
    non-retriable [Fatal] error on every name the pattern does not match.
    On a matching name it fails as soon as a field does not parse, in the
    order timestamp, OS, device id, version, with that field's parse error
    converted into [Error]; except the version: its parse error (the token
    is a run of Unicode decimal digits, [\d+], which fails to parse when it
    holds a non-ASCII digit or overflows [i64]) is returned unchanged, and
    it is [Retriable], not [Fatal]. *)
Theorem metadata_from_file_name_errors (file_name : string) :
  ((forall c, ~ regex_matches file_name c) ->
   metadata_from_file_name (OperatingSystem := OperatingSystem)
     (DeviceIdentifier := DeviceIdentifier) file_name
   = Err (Fatal ("Invalid backup file name format: '" ++ file_name ++ "'")))
  /\ (forall c e, regex_matches file_name c ->
        i64_from_str (cap_timestamp c) = Err e ->
        metadata_from_file_name (OperatingSystem := OperatingSystem)
     (DeviceIdentifier := DeviceIdentifier) file_name = Err (error_from e))
  /\ (forall c ts e, regex_matches file_name c ->
        i64_from_str (cap_timestamp c) = Ok ts ->
        from_str (T := OperatingSystem) (cap_os c) = Err e ->
        metadata_from_file_name (OperatingSystem := OperatingSystem)
     (DeviceIdentifier := DeviceIdentifier) file_name = Err (error_from e))
  /\ (forall c ts os e, regex_matches file_name c ->
        i64_from_str (cap_timestamp c) = Ok ts ->
        from_str (T := OperatingSystem) (cap_os c) = Ok os ->
        from_str (T := DeviceIdentifier) (cap_device_id c) = Err e ->
        metadata_from_file_name (OperatingSystem := OperatingSystem)
     (DeviceIdentifier := DeviceIdentifier) file_name = Err (error_from e))
  /\ (forall c ts os dev e, regex_matches file_name c ->
        i64_from_str (cap_timestamp c) = Ok ts ->
        from_str (T := OperatingSystem) (cap_os c) = Ok os ->
        from_str (T := DeviceIdentifier) (cap_device_id c) = Ok dev ->
        backup_version_from_str (cap_version c) = Err e ->
        metadata_from_file_name (OperatingSystem := OperatingSystem)
     (DeviceIdentifier := DeviceIdentifier) file_name = Err e /\ is_retriable e = true).
Proof.
  unfold metadata_from_file_name, parse_field_from_backup_file_name.
  split; [|split; [|split; [|split]]].
  - intros Hno. apply captures_regex_none in Hno. rewrite Hno. reflexivity.
  - intros c e Hm He. apply captures_regex in Hm. rewrite Hm.
    rewrite captures_name_timestamp; cbv beta iota.
    rewrite from_str_i64, He. reflexivity.
  - intros c ts e Hm Ht He. apply captures_regex in Hm. rewrite Hm.
    rewrite captures_name_timestamp; cbv beta iota.
    rewrite from_str_i64, Ht; cbv beta iota.
    rewrite captures_name_os; cbv beta iota. rewrite He. reflexivity.
  - intros c ts os e Hm Ht Ho He. apply captures_regex in Hm. rewrite Hm.
    rewrite captures_name_timestamp; cbv beta iota.
    rewrite from_str_i64, Ht; cbv beta iota.
    rewrite captures_name_os; cbv beta iota. rewrite Ho; cbv beta iota.
    rewrite captures_name_device_id; cbv beta iota. rewrite He. reflexivity.
  - intros c ts os dev e Hm Ht Ho Hd He.
    pose proof Hm as (_ & _ & _ & _ & _ & Hv).
    apply captures_regex in Hm. rewrite Hm.
    rewrite captures_name_timestamp; cbv beta iota.
    rewrite from_str_i64, Ht; cbv beta iota.
    rewrite captures_name_os; cbv beta iota. rewrite Ho; cbv beta iota.
    rewrite captures_name_device_id; cbv beta iota. rewrite Hd; cbv beta iota.
    rewrite captures_name_version; cbv beta iota.
    rewrite from_str_backup_version, He.
    split; [reflexivity|].
    unfold backup_version_from_str in He.
    destruct (i64_from_str (cap_version c)) as [n|err] eqn:En.
    + apply i64_from_str_decimal_nonneg in En; [|exact Hv].
      unfold backup_version_try_from in He.
      destruct (Z.ltb_spec n 0); [lia|discriminate].
    + injection He as <-. reflexivity.
Qed.

End FileNames.

(** ** File names of backups on concrete inputs *)

Section FileNameExamples.

Local Open Scope string_scope.

Example parse_spec_scenario :
  parse_backup_file_name "sealvault_backup_v1_ios_1700000000_dev123_3.zip"
  = Ok {| mf_timestamp := 1700000000; mf_os := SpecModel.Ios;
          mf_device_id := {| SpecModel.device_identifier := "dev123" |};
          mf_backup_version := MkBackupVersion 3 |}.
Proof. reflexivity. Qed.

Example parse_missing_zip :
  parse_backup_file_name "sealvault_backup_v1_ios_1700000000_dev123_3"
  = Err (Fatal "Invalid backup file name format: 'sealvault_backup_v1_ios_1700000000_dev123_3'").
Proof. reflexivity. Qed.

Lemma backup_file_name_round_trip_witness :
  parse_backup_file_name (backup_file_name (sample_metadata 1700000000))
  = Ok {| mf_timestamp := 1700000000; mf_os := SpecModel.Ios;
          mf_device_id := {| SpecModel.device_identifier := "dev123" |};
          mf_backup_version := MkBackupVersion 3 |}.
Proof.
  apply (backup_file_name_round_trip (sample_metadata 1700000000));
    cbn; try reflexivity; unfold i64_max; lia.
Defined.

Lemma backup_file_name_negative_timestamp_rejected_witness :
  parse_backup_file_name (backup_file_name (sample_metadata (-1)))
  = Err (Fatal ("Invalid backup file name format: '"
                ++ backup_file_name (sample_metadata (-1)) ++ "'")).
Proof.
  apply (backup_file_name_negative_timestamp_rejected (sample_metadata (-1))).
  cbn; lia.
Defined.

(** Claim C6 fails at a negative timestamp: the name carries it as [-1],
    which is not an unsigned decimal. *)
Lemma backup_file_name_signed_timestamp :
  backup_file_name (sample_metadata (-1))
  = "sealvault_backup_v1_ios_-1_dev123_3.zip"
  /\ plus is_ascii_digit (i64_to_string (timestamp (sample_metadata (-1))))
     = false.
Proof. split; reflexivity. Qed.

(** Claim C5 fails: these names match the pattern and parsing them fails
    with a [Retriable] error. In the first the version token is too large
    for an [i64]; in the second it is the Arabic-Indic digit three
    (U+0663, bytes D9 A3), a [\d] of the regex that [i64::from_str]
    refuses as an invalid digit. *)
Lemma file_name_version_parse_retriable :
  regex_matches "sealvault_backup_v1_ios_1700000000_dev123_99999999999999999999.zip"
    {| cap_scheme := "v1"; cap_os := "ios"; cap_timestamp := "1700000000";
       cap_device_id := "dev123"; cap_version := "99999999999999999999" |}
  /\ parse_backup_file_name
       "sealvault_backup_v1_ios_1700000000_dev123_99999999999999999999.zip"
     = Err (Retriable "Failed to parse str to backup version with error 'number too large to fit in target type'")
  /\ regex_matches
       ("sealvault_backup_v1_ios_1700000000_dev123_" ++ arabic_indic_digit_three
        ++ ".zip")
       {| cap_scheme := "v1"; cap_os := "ios"; cap_timestamp := "1700000000";
          cap_device_id := "dev123"; cap_version := arabic_indic_digit_three |}
  /\ parse_backup_file_name
       ("sealvault_backup_v1_ios_1700000000_dev123_" ++ arabic_indic_digit_three
        ++ ".zip")
     = Err (Retriable "Failed to parse str to backup version with error 'invalid digit found in string'").
Proof.
  split; [apply captures_regex; reflexivity|].
  split; [reflexivity|].
  split; [apply captures_regex; reflexivity | reflexivity].
Qed.

End FileNameExamples.

(** ** Canonical JSON *)

Local Open Scope string_scope.

Lemma btree_of_metadata_keys (v1 v2 v3 v4 v5 v6 v7 : string) :
  btree_of [(json_string "backup_scheme", v1); (json_string "backup_version", v2);
            (json_string "timestamp", v7); (json_string "device_id", v3);
            (json_string "device_name", v4); (json_string "operating_system", v6);
            (json_string "kdf_nonce", v5)]
  = [(json_string "backup_scheme", v1); (json_string "backup_version", v2);
     (json_string "device_id", v3); (json_string "device_name", v4);
     (json_string "kdf_nonce", v5); (json_string "operating_system", v6);
     (json_string "timestamp", v7)].
Proof. vm_compute. reflexivity. Qed.

Lemma escape_cons c s : escape (String c s) = escape_char c ++ escape s.
Proof. unfold escape_char. cbn [escape]. destruct (c =? quote)%char, (c =? backslash)%char; reflexivity. Qed.

Lemma escape_char_head c x : exists d y, escape_char c ++ x = String d y /\ d <> quote.
Proof.
  unfold escape_char.
  destruct (Ascii.eqb_spec c quote); [eexists _, _; split; [reflexivity|discriminate]|].
  destruct (Ascii.eqb_spec c backslash); [eexists _, _; split; [reflexivity|discriminate]|].
  eexists _, _; split; [reflexivity|exact n].
Qed.

Lemma escape_char_inj c d x y :
  escape_char c ++ x = escape_char d ++ y -> c = d /\ x = y.
Proof.
  unfold escape_char.
  destruct (Ascii.eqb_spec c quote) as [->|Hc1];
  destruct (Ascii.eqb_spec d quote) as [->|Hd1];
  try destruct (Ascii.eqb_spec c backslash) as [->|Hc2];
  try destruct (Ascii.eqb_spec d backslash) as [->|Hd2];
  cbn [append]; intros Heq; injection Heq as; subst; try congruence;
  repeat match goal with
         | H : _ = _ |- _ => discriminate H
         end; auto.
Qed.

Lemma escape_delim a b r1 r2 :
  escape a ++ String quote r1 = escape b ++ String quote r2 -> a = b /\ r1 = r2.
Proof.
  revert b; induction a as [|c a IH]; intros [|d b]; rewrite ?escape_cons; cbn [escape].
  - cbn [append]; intros Heq; injection Heq as ->; auto.
  - rewrite string_app_assoc. destruct (escape_char_head d (escape b ++ String quote r2)) as (x & y & -> & Hx).
    cbn [append]; intros Heq; injection Heq as; congruence.
  - rewrite string_app_assoc. destruct (escape_char_head c (escape a ++ String quote r1)) as (x & y & -> & Hx).
    cbn [append]; intros Heq; injection Heq as; congruence.
  - rewrite !string_app_assoc. intros Heq. apply escape_char_inj in Heq as [-> Heq].
    apply IH in Heq as [-> ->]; auto.
Qed.

Lemma i64_to_string_chars z : all_chars is_number_char (i64_to_string z) = true.
Proof.
  assert (Hd : forall c, is_ascii_digit c = true -> is_number_char c = true)
    by (intros c Hc; unfold is_number_char; rewrite Hc; reflexivity).
  destruct (Z.leb_spec 0 z) as [Hz|Hz].
  - apply (all_chars_impl _ _ _ Hd), plus_all_chars, i64_to_string_nonneg, Hz.
  - rewrite (i64_to_string_neg z Hz). cbn [all_chars].
    apply (all_chars_impl _ _ _ Hd), plus_all_chars, i64_to_string_nonneg. lia.
Qed.

Lemma all_chars_delim f s1 s2 c r1 r2 :
  all_chars f s1 = true -> all_chars f s2 = true -> f c = false ->
  s1 ++ String c r1 = s2 ++ String c r2 -> s1 = s2 /\ r1 = r2.
Proof.
  revert s2; induction s1 as [|a s1 IH]; intros [|b s2]; cbn [all_chars append];
    intros H1 H2 Hc Heq; injection Heq as; subst; auto.
  - rewrite Hc in H2; discriminate.
  - rewrite Hc in H1; discriminate.
  - apply andb_true_iff in H1 as [_ H1]; apply andb_true_iff in H2 as [_ H2].
    destruct (IH s2 H1 H2 Hc) as [-> ->]; auto.
Qed.

Lemma i64_to_string_inj a b : i64_to_string a = i64_to_string b -> a = b.
Proof.
  unfold i64_to_string. intros Heq.
  apply (f_equal NilEmpty.int_of_string) in Heq. rewrite !NilEmpty.isi in Heq.
  injection Heq as Heq. apply DecimalZ.to_int_inj, Heq.
Qed.

Lemma number_delim a b c r1 r2 :
  is_number_char c = false ->
  i64_to_string a ++ String c r1 = i64_to_string b ++ String c r2 -> a = b /\ r1 = r2.
Proof.
  intros Hc Heq. apply all_chars_delim with (f := is_number_char) in Heq
    as [Hs ->]; auto using i64_to_string_chars.
  split; [apply i64_to_string_inj, Hs|reflexivity].
Qed.

Lemma json_string_app s r : json_string s ++ r = String quote (escape s ++ String quote r).
Proof. unfold json_string. cbn [append]. rewrite string_app_assoc. reflexivity. Qed.

Lemma metadata_layout_inj a1 a3 a4 a5 a6 b1 b3 b4 b5 b6 n2 n7 m2 m7 :
  metadata_layout (json_string a1) (i64_to_string n2) (json_string a3) (json_string a4)
    (json_string a5) (json_string a6) (i64_to_string n7)
  = metadata_layout (json_string b1) (i64_to_string m2) (json_string b3) (json_string b4)
    (json_string b5) (json_string b6) (i64_to_string m7) ->
  a1 = b1 /\ n2 = m2 /\ a3 = b3 /\ a4 = b4 /\ a5 = b5 /\ a6 = b6 /\ n7 = m7.
Proof.
  unfold metadata_layout. rewrite !json_string_app. cbn [append].
  intros Heq.
  repeat first
    [ progress (injection Heq as Heq)
    | apply escape_delim in Heq as [? Heq]
    | apply number_delim in Heq as [? Heq]; [|reflexivity] ].
  subst; auto 10.
Qed.

Local Close Scope string_scope.

Section CanonicalJson.

Context {BackupScheme OperatingSystem DeviceIdentifier DeviceName : Type}.
Context `{Serialize BackupScheme} `{Serialize OperatingSystem}
        `{Serialize DeviceIdentifier} `{Serialize DeviceName}.

Lemma canonical_json_layout
    (m : @BackupMetadata BackupScheme OperatingSystem DeviceIdentifier DeviceName)
    (s1 s2 s3 s4 : string) :
  serialize (backup_scheme m) = JString s1 ->
  serialize (operating_system m) = JString s2 ->
  serialize (device_id m) = JString s3 ->
  serialize (device_name m) = JString s4 ->
  canonical_json m =
  Ok (metadata_layout (json_string s1)
        (i64_to_string (backup_version_value (backup_version m)))
        (json_string s3) (json_string s4) (json_string (kdf_nonce m))
        (json_string s2) (i64_to_string (timestamp m))).
Proof.
  intros E1 E2 E3 E4. unfold canonical_json, serialize_backup_metadata.
  rewrite E1, E2, E3, E4.
  cbn [write_canonical serialize Serialize_BackupVersion Serialize_i64
       Serialize_string option_map].
  rewrite btree_of_metadata_keys. cbn [String.concat map]. unfold metadata_layout.
  rewrite !string_app_assoc. reflexivity.
Qed.

(** C2: when the scheme, OS, device id and device name serialize as JSON
    strings, each injectively (as their unit-variant enums and string
    newtypes do), two metadata values have the same canonical JSON exactly
    when they are field-wise equal. *)
Theorem canonical_json_injective
    (Hscheme : forall x : BackupScheme, exists s, serialize x = JString s)
    (Hos : forall x : OperatingSystem, exists s, serialize x = JString s)
    (Hdev : forall x : DeviceIdentifier, exists s, serialize x = JString s)
    (Hname : forall x : DeviceName, exists s, serialize x = JString s)
    (Ischeme : forall x y : BackupScheme, serialize x = serialize y -> x = y)
    (Ios : forall x y : OperatingSystem, serialize x = serialize y -> x = y)
    (Idev : forall x y : DeviceIdentifier, serialize x = serialize y -> x = y)
    (Iname : forall x y : DeviceName, serialize x = serialize y -> x = y)
    (a b : @BackupMetadata BackupScheme OperatingSystem DeviceIdentifier DeviceName) :
  (a = b -> canonical_json a = canonical_json b) /\
  (a <> b -> canonical_json a <> canonical_json b).
Proof.
  split; [intros ->; reflexivity|].
  intros Hne Heq. apply Hne.
  destruct (Hscheme (backup_scheme a)) as [a1 Ea1], (Hos (operating_system a)) as [a6 Ea6],
    (Hdev (device_id a)) as [a3 Ea3], (Hname (device_name a)) as [a4 Ea4].
  destruct (Hscheme (backup_scheme b)) as [b1 Eb1], (Hos (operating_system b)) as [b6 Eb6],
    (Hdev (device_id b)) as [b3 Eb3], (Hname (device_name b)) as [b4 Eb4].
  rewrite (canonical_json_layout a a1 a6 a3 a4 Ea1 Ea6 Ea3 Ea4),
    (canonical_json_layout b b1 b6 b3 b4 Eb1 Eb6 Eb3 Eb4) in Heq.
  apply (f_equal (fun r => match r with Ok s => s | Err _ => EmptyString end))
    in Heq.
  cbv beta iota in Heq. apply metadata_layout_inj in Heq
    as (-> & Hv & -> & -> & Hk & -> & Ht).
  destruct a as [sa [va] ta da na oa ka], b as [sb [vb] tb db nb ob kb].
  cbn in *. subst.
  f_equal; [apply Ischeme | apply Idev | apply Iname | apply Ios]; congruence.
Qed.

End CanonicalJson.

Section CanonicalJsonExamples.

Local Open Scope string_scope.

Example canonical_json_sample :
  canonical_json (sample_metadata 1700000000)
  = Ok ("{" ++ json_string "backup_scheme" ++ ":" ++ json_string "v1" ++ ","
        ++ json_string "backup_version" ++ ":3,"
        ++ json_string "device_id" ++ ":" ++ json_string "dev123" ++ ","
        ++ json_string "device_name" ++ ":" ++ json_string "phone" ++ ","
        ++ json_string "kdf_nonce" ++ ":" ++ json_string "bm9uY2U=" ++ ","
        ++ json_string "operating_system" ++ ":" ++ json_string "ios" ++ ","
        ++ json_string "timestamp" ++ ":1700000000}").
Proof. vm_compute. reflexivity. Qed.

Lemma canonical_json_injective_witness :
  sample_metadata 1700000000 <> sample_metadata 1700000001 /\
  canonical_json (sample_metadata 1700000000)
  <> canonical_json (sample_metadata 1700000001).
Proof.
  split; [intros Heq; injection Heq; lia|].
  apply (canonical_json_injective
           (BackupScheme := SpecModel.BackupScheme)
           (OperatingSystem := SpecModel.OperatingSystem)
           (DeviceIdentifier := SpecModel.DeviceIdentifier)
           (DeviceName := SpecModel.DeviceName)).
  - intros x; eexists; reflexivity.
  - intros x; eexists; reflexivity.
  - intros x; eexists; reflexivity.
  - intros x; eexists; reflexivity.
  - intros [] []; reflexivity.
  - intros [] []; reflexivity.
  - intros [x] [y] Hxy; injection Hxy as ->; reflexivity.
  - intros [x] [y] Hxy; injection Hxy as ->; reflexivity.
  - intros Heq; injection Heq; lia.
Defined.

End CanonicalJsonExamples.

(** ** The [BackupVersion] invariant *)

Lemma backup_version_try_from_nonneg (n : Z) (v : BackupVersion) :
  backup_version_try_from n = Ok v -> 0 <= backup_version_value v.
Proof.
  unfold backup_version_try_from. destruct (Z.ltb_spec n 0) as [Hn|Hn];
    intros H; [discriminate H|].
  injection H as <-. cbn. exact Hn.
Qed.

Lemma deserialize_backup_version_nonneg (j : JValue) (v : BackupVersion) :
  deserialize j = Ok v -> 0 <= backup_version_value v.
Proof.
  unfold deserialize, Deserialize_BackupVersion.
  destruct (deserialize (T := Z) j) as [n|e]; cbn; [|discriminate].
  destruct (backup_version_try_from n) eqn:E; intros H; [|discriminate H].
  injection H as <-. exact (backup_version_try_from_nonneg n _ E).
Qed.

Lemma deserialize_backup_version_negative (n : Z) :
  n < 0 -> exists e, deserialize (T := BackupVersion) (JNumber n) = Err e.
Proof.
  intros Hn. unfold deserialize, Deserialize_BackupVersion.
  unfold deserialize, Deserialize_i64.
  destruct (andb _ _); cbn; [|eexists; reflexivity].
  unfold backup_version_try_from. rewrite (proj2 (Z.ltb_lt n 0) Hn).
  eexists; reflexivity.
Qed.

Section MetadataInvariant.

Context {BackupScheme OperatingSystem DeviceIdentifier DeviceName : Type}.
Context `{Deserialize BackupScheme} `{Deserialize OperatingSystem}
        `{Deserialize DeviceIdentifier} `{Deserialize DeviceName}.

Local Open Scope string_scope.

Lemma visit_field_some {T : Type} {DT : Deserialize T} (name : string)
    (slot slot' : option T) (j : JValue) (x : T) :
  visit_field name slot j = Ok slot' -> slot' = Some x ->
  slot = None /\ deserialize j = Ok x.
Proof.
  unfold visit_field. destruct slot; [discriminate|].
  destruct (deserialize j) as [y|e]; cbn; [|discriminate].
  intros Hy ->; injection Hy as ->; auto.
Qed.

Lemma visit_entry_nonneg (s s' : (@MetadataSlots BackupScheme OperatingSystem DeviceIdentifier DeviceName)) k j :
  slots_nonneg s -> visit_entry s k j = Ok s' -> slots_nonneg s'.
Proof.
  destruct s as [a b c d e f g]. unfold slots_nonneg, visit_entry. cbn.
  intros Hs.
  repeat match goal with
  | |- context [if ?t then _ else _] => destruct t
  end;
  try (intros Hok; injection Hok as <-; exact Hs);
  match goal with
  | |- context [visit_field ?k ?sl ?j] =>
      destruct (visit_field k sl j) as [sl'|err] eqn:E; cbn; [|discriminate]
  end;
  intros Hok; injection Hok as <-; cbn; try exact Hs.
  intros v Hv. apply (visit_field_some _ _ _ _ v E) in Hv as [_ Hv].
  exact (deserialize_backup_version_nonneg _ _ Hv).
Qed.

Lemma visit_entries_nonneg entries (s s' : (@MetadataSlots BackupScheme OperatingSystem DeviceIdentifier DeviceName)) :
  slots_nonneg s -> visit_entries s entries = Ok s' -> slots_nonneg s'.
Proof.
  revert s; induction entries as [|[k j] rest IH]; intros s Hs; cbn.
  - intros Hok; injection Hok as <-; exact Hs.
  - destruct (visit_entry s k j) as [s1|err] eqn:E; cbn; [|discriminate].
    apply IH. exact (visit_entry_nonneg _ _ _ _ Hs E).
Qed.

Lemma visit_entry_version (s s' : (@MetadataSlots BackupScheme OperatingSystem DeviceIdentifier DeviceName)) j :
  visit_entry s "backup_version" j = Ok s' ->
  exists v, deserialize (T := BackupVersion) j = Ok v.
Proof.
  destruct s as [a b c d e f g]. cbn.
  unfold visit_field. destruct b; [discriminate|].
  destruct (deserialize j) as [v|err]; cbn; [eauto|discriminate].
Qed.

Lemma visit_entries_version entries (s s' : (@MetadataSlots BackupScheme OperatingSystem DeviceIdentifier DeviceName)) j :
  visit_entries s entries = Ok s' -> In ("backup_version", j) entries ->
  exists v, deserialize (T := BackupVersion) j = Ok v.
Proof.
  revert s; induction entries as [|[k j'] rest IH]; intros s; cbn; [tauto|].
  destruct (visit_entry s k j') as [s1|err] eqn:E; cbn; [|discriminate].
  intros Hok [Heq|Hin].
  - injection Heq as -> ->. exact (visit_entry_version _ _ _ E).
  - exact (IH s1 Hok Hin).
Qed.

End MetadataInvariant.

Section BackupVersionInvariant.

Context {BackupScheme OperatingSystem DeviceIdentifier DeviceName : Type}.
Context `{Deserialize BackupScheme} `{Deserialize OperatingSystem}
        `{Deserialize DeviceIdentifier} `{Deserialize DeviceName}.

Local Open Scope string_scope.

(** C9: every [BackupVersion] that [try_from], [from_str], its [Deserialize]
    impl or the derived [Deserialize] of [BackupMetadata] (from a JSON
    object or array) produces wraps a non-negative integer; a negative
    version makes deserialization fail, whether the version alone, or the
    version of a metadata object or array, is read. *)
Theorem backup_version_nonneg_invariant :
  (forall n v, backup_version_try_from n = Ok v -> 0 <= backup_version_value v) /\
  (forall s v, backup_version_from_str s = Ok v -> 0 <= backup_version_value v) /\
  (forall j v, deserialize (T := BackupVersion) j = Ok v ->
               0 <= backup_version_value v) /\
  (forall j (m : @BackupMetadata BackupScheme OperatingSystem DeviceIdentifier DeviceName),
     deserialize_backup_metadata j = Ok m ->
     0 <= backup_version_value (backup_version m)) /\
  (forall n, n < 0 -> exists e, deserialize (T := BackupVersion) (JNumber n) = Err e) /\
  (forall entries n, n < 0 -> In ("backup_version", JNumber n) entries ->
     exists e, deserialize_backup_metadata
                 (BackupScheme := BackupScheme) (OperatingSystem := OperatingSystem)
                 (DeviceIdentifier := DeviceIdentifier) (DeviceName := DeviceName)
                 (JObject entries) = Err e) /\
  (forall a c d e f g n, n < 0 ->
     exists err, deserialize_backup_metadata
                   (BackupScheme := BackupScheme) (OperatingSystem := OperatingSystem)
                   (DeviceIdentifier := DeviceIdentifier) (DeviceName := DeviceName)
                   (JArray [a; JNumber n; c; d; e; f; g]) = Err err).
Proof.
  split; [exact backup_version_try_from_nonneg|].
  split.
  { intros s v. unfold backup_version_from_str.
    destruct (i64_from_str s) as [n|err]; [|discriminate].
    apply backup_version_try_from_nonneg. }
  split; [exact deserialize_backup_version_nonneg|].
  split.
  { intros [| | | | |items|entries] m; cbn; try discriminate.
    - unfold visit_seq.
      destruct items as [|a [|b [|c [|d [|e [|f [|g [|]]]]]]]]; try discriminate.
      destruct (deserialize a) as [x1|err]; cbn; [|discriminate].
      destruct (deserialize b) as [x2|err] eqn:E2; cbn; [|discriminate].
      repeat match goal with
      | |- context [match deserialize ?j with _ => _ end] =>
          destruct (deserialize j); cbn; [|discriminate]
      end.
      intros Hm; injection Hm as <-; cbn.
      exact (deserialize_backup_version_nonneg _ _ E2).
    - unfold visit_map.
      destruct (visit_entries empty_slots entries) as [s|err] eqn:E; cbn; [|discriminate].
      assert (Hs : slots_nonneg s)
        by (apply (visit_entries_nonneg entries empty_slots); [discriminate|exact E]).
      destruct (slot_backup_version s) as [v|] eqn:Ev;
        destruct (slot_backup_scheme s); cbn; try discriminate.
      repeat match goal with
      | |- context [match required ?k ?sl with _ => _ end] =>
          destruct sl; cbn; [|discriminate]
      end.
      intros Hm; injection Hm as <-; cbn. exact (Hs v Ev). }
  split; [exact deserialize_backup_version_negative|].
  split.
  { intros entries n Hn Hin. cbn. unfold visit_map.
    destruct (visit_entries empty_slots entries) as [s|err] eqn:E; cbn;
      [|eexists; reflexivity].
    eapply visit_entries_version in E as [v Hv]; [|exact Hin].
    destruct (deserialize_backup_version_negative n Hn) as [err Herr]. congruence. }
  { intros a c d e f g n Hn. cbn. unfold visit_seq.
    destruct (deserialize_backup_version_negative n Hn) as [err Herr].
    destruct (deserialize a); cbn; [|eexists; reflexivity].
    rewrite Herr. eexists; reflexivity. }
Qed.

End BackupVersionInvariant.

(** ** [last_uploaded_backup] *)

Section LastUploadedProofs.

Context {BackupScheme OperatingSystem DeviceIdentifier : Type}.
Context `{Display BackupScheme} `{Display OperatingSystem}
        `{Display DeviceIdentifier} `{Default OperatingSystem}.
Context (V1 : BackupScheme).
Context {DateTime : Type}.
Context (parse_rfc3339_timestamp : string -> result DateTime Error).
Context (datetime_timestamp : DateTime -> Z).

Lemma deferred_transaction_fetch (pool : ConnectionPool) (tx_conn : TxConn)
    (datestamp : option string) (backup_version : BackupVersion) :
  pool_connection pool = Ok tx_conn ->
  fetch_backup_timestamp tx_conn = Ok datestamp ->
  fetch_backup_version tx_conn = Ok backup_version ->
  pool_commit pool = Ok tt ->
  deferred_transaction pool fetch_backup_state = Ok (backup_version, datestamp).
Proof.
  intros Hc Ht Hv Hk. unfold deferred_transaction, fetch_backup_state.
  rewrite Hc; cbv beta iota. rewrite Ht; cbv beta iota. rewrite Hv; cbv beta iota.
  rewrite Hk. reflexivity.
Qed.

(** C3 (amended): when the transaction gets its connection, reads the
    recorded timestamp and the version, and commits, [last_uploaded_backup]
    returns [None] without asking the storage if no timestamp is recorded;
    if one is recorded and parses as RFC3339 to [t], it asks the storage
    about exactly the name built from [V1], the default OS, [t], the device
    id and the version, and returns [Some t] if the storage has it and
    [None] otherwise; a recorded timestamp that does not parse is an
    error. When the connection, the read of the timestamp, the read of the
    version or the commit fails, it returns that error without asking the
    storage, whatever timestamp is recorded, none included. *)
Theorem last_uploaded_backup_resolves
    (resources : @CoreResources DeviceIdentifier) :
  (forall (tx_conn : TxConn) (datestamp : option string)
          (backup_version : BackupVersion),
     pool_connection (connection_pool resources) = Ok tx_conn ->
     fetch_backup_timestamp tx_conn = Ok datestamp ->
     fetch_backup_version tx_conn = Ok backup_version ->
     pool_commit (connection_pool resources) = Ok tt ->
     (datestamp = None -> last_uploaded_backup (OperatingSystem := OperatingSystem) V1
          parse_rfc3339_timestamp datetime_timestamp resources = (Ok None, [])) /\
     (forall d datetime, datestamp = Some d ->
        parse_rfc3339_timestamp d = Ok datetime ->
        let t := datetime_timestamp datetime in
        let name := get_backup_file_name V1 (default (T := OperatingSystem)) t
                      (resources_device_id resources) backup_version in
        last_uploaded_backup (OperatingSystem := OperatingSystem) V1
          parse_rfc3339_timestamp datetime_timestamp resources
        = (if is_uploaded resources name then Ok (Some t) else Ok None, [name])) /\
     (forall d e, datestamp = Some d -> parse_rfc3339_timestamp d = Err e ->
        last_uploaded_backup (OperatingSystem := OperatingSystem) V1
          parse_rfc3339_timestamp datetime_timestamp resources = (Err e, []))) /\
  (forall e, pool_connection (connection_pool resources) = Err e ->
     last_uploaded_backup (OperatingSystem := OperatingSystem) V1
       parse_rfc3339_timestamp datetime_timestamp resources = (Err e, [])) /\
  (forall tx_conn e, pool_connection (connection_pool resources) = Ok tx_conn ->
     fetch_backup_timestamp tx_conn = Err e ->
     last_uploaded_backup (OperatingSystem := OperatingSystem) V1
       parse_rfc3339_timestamp datetime_timestamp resources = (Err e, [])) /\
  (forall tx_conn datestamp e,
     pool_connection (connection_pool resources) = Ok tx_conn ->
     fetch_backup_timestamp tx_conn = Ok datestamp ->
     fetch_backup_version tx_conn = Err e ->
     last_uploaded_backup (OperatingSystem := OperatingSystem) V1
       parse_rfc3339_timestamp datetime_timestamp resources = (Err e, [])) /\
  (forall tx_conn datestamp backup_version e,
     pool_connection (connection_pool resources) = Ok tx_conn ->
     fetch_backup_timestamp tx_conn = Ok datestamp ->
     fetch_backup_version tx_conn = Ok backup_version ->
     pool_commit (connection_pool resources) = Err e ->
     last_uploaded_backup (OperatingSystem := OperatingSystem) V1
       parse_rfc3339_timestamp datetime_timestamp resources = (Err e, [])).
Proof.
  split.
  { intros tx_conn datestamp backup_version Hconn Hts Hver Hcommit.
    pose proof (deferred_transaction_fetch _ _ _ _ Hconn Hts Hver Hcommit) as Htx.
    unfold last_uploaded_backup. rewrite Htx; cbv beta iota.
    split; [intros ->; reflexivity|].
    split.
    - intros d datetime -> Hp. rewrite Hp. reflexivity.
    - intros d e -> Hp. rewrite Hp. reflexivity. }
  unfold last_uploaded_backup, deferred_transaction, fetch_backup_state.
  split; [intros e Hc; rewrite Hc; reflexivity|].
  split; [intros tx_conn e Hc Ht; rewrite Hc; cbv beta iota; rewrite Ht; reflexivity|].
  split.
  - intros tx_conn ds e Hc Ht Hv. rewrite Hc; cbv beta iota.
    rewrite Ht; cbv beta iota. rewrite Hv. reflexivity.
  - intros tx_conn ds v e Hc Ht Hv Hk. rewrite Hc; cbv beta iota.
    rewrite Ht; cbv beta iota. rewrite Hv; cbv beta iota. rewrite Hk. reflexivity.
Qed.

(** C10: an error of the transaction (no connection, a failed read of the
    timestamp or of the version, a failed commit) or a recorded timestamp
    that is not RFC3339 makes [last_uploaded_backup] return that error
    without asking the storage anything; it returns [None] only when the
    reads succeed and either no timestamp is recorded or the storage does
    not have the derived file name. *)
Theorem last_uploaded_backup_errors (resources : @CoreResources DeviceIdentifier) :
  (forall e, pool_connection (connection_pool resources) = Err e ->
     last_uploaded_backup (OperatingSystem := OperatingSystem) V1
       parse_rfc3339_timestamp datetime_timestamp resources = (Err e, [])) /\
  (forall tx_conn e, pool_connection (connection_pool resources) = Ok tx_conn ->
     fetch_backup_timestamp tx_conn = Err e -> last_uploaded_backup (OperatingSystem := OperatingSystem) V1
       parse_rfc3339_timestamp datetime_timestamp resources = (Err e, [])) /\
  (forall tx_conn datestamp e,
     pool_connection (connection_pool resources) = Ok tx_conn ->
     fetch_backup_timestamp tx_conn = Ok datestamp ->
     fetch_backup_version tx_conn = Err e -> last_uploaded_backup (OperatingSystem := OperatingSystem) V1
       parse_rfc3339_timestamp datetime_timestamp resources = (Err e, [])) /\
  (forall tx_conn datestamp backup_version e,
     pool_connection (connection_pool resources) = Ok tx_conn ->
     fetch_backup_timestamp tx_conn = Ok datestamp ->
     fetch_backup_version tx_conn = Ok backup_version ->
     pool_commit (connection_pool resources) = Err e ->
     last_uploaded_backup (OperatingSystem := OperatingSystem) V1
       parse_rfc3339_timestamp datetime_timestamp resources = (Err e, [])) /\
  (forall tx_conn d backup_version e,
     pool_connection (connection_pool resources) = Ok tx_conn ->
     fetch_backup_timestamp tx_conn = Ok (Some d) ->
     fetch_backup_version tx_conn = Ok backup_version ->
     pool_commit (connection_pool resources) = Ok tt ->
     parse_rfc3339_timestamp d = Err e -> last_uploaded_backup (OperatingSystem := OperatingSystem) V1
       parse_rfc3339_timestamp datetime_timestamp resources = (Err e, [])) /\
  (fst (last_uploaded_backup (OperatingSystem := OperatingSystem) V1
       parse_rfc3339_timestamp datetime_timestamp resources) = Ok None ->
     exists tx_conn backup_version,
       pool_connection (connection_pool resources) = Ok tx_conn /\
       fetch_backup_version tx_conn = Ok backup_version /\
       pool_commit (connection_pool resources) = Ok tt /\
       (fetch_backup_timestamp tx_conn = Ok None \/
        exists d datetime,
          fetch_backup_timestamp tx_conn = Ok (Some d) /\
          parse_rfc3339_timestamp d = Ok datetime /\
          is_uploaded resources
            (get_backup_file_name V1 (default (T := OperatingSystem))
               (datetime_timestamp datetime) (resources_device_id resources)
               backup_version) = false)).
Proof.
  unfold last_uploaded_backup, deferred_transaction, fetch_backup_state.
  split; [intros e He; rewrite He; reflexivity|].
  split; [intros tx_conn e Hc Ht; rewrite Hc; cbv beta iota; rewrite Ht; reflexivity|].
  split.
  { intros tx_conn ds e Hc Ht Hv. rewrite Hc; cbv beta iota.
    rewrite Ht; cbv beta iota. rewrite Hv. reflexivity. }
  split.
  { intros tx_conn ds v e Hc Ht Hv Hk. rewrite Hc; cbv beta iota.
    rewrite Ht; cbv beta iota. rewrite Hv; cbv beta iota. rewrite Hk. reflexivity. }
  split.
  { intros tx_conn d v e Hc Ht Hv Hk Hp. rewrite Hc; cbv beta iota.
    rewrite Ht; cbv beta iota. rewrite Hv; cbv beta iota. rewrite Hk; cbv beta iota.
    rewrite Hp. reflexivity. }
  destruct (pool_connection (connection_pool resources)) as [tx_conn|e] eqn:Hc;
    cbv beta iota; cbn [fst]; [|discriminate].
  destruct (fetch_backup_timestamp tx_conn) as [ds|e] eqn:Ht;
    cbv beta iota; cbn [fst]; [|discriminate].
  destruct (fetch_backup_version tx_conn) as [v|e] eqn:Hv;
    cbv beta iota; cbn [fst]; [|discriminate].
  destruct (pool_commit (connection_pool resources)) as [[]|e] eqn:Hk;
    cbv beta iota; cbn [fst]; [|discriminate].
  intros Hnone. exists tx_conn, v. do 3 (split; [first [reflexivity|assumption]|]).
  destruct ds as [d|]; [right|left; first [reflexivity|exact Ht]].
  destruct (parse_rfc3339_timestamp d) as [datetime|e] eqn:Hp;
    cbv beta iota zeta in Hnone; cbn [fst] in Hnone; [|discriminate].
  exists d, datetime. do 2 (split; [first [reflexivity|assumption]|]).
  destruct (is_uploaded resources _); [discriminate|reflexivity].
Qed.

End LastUploadedProofs.

Section LastUploadedExamples.

Local Open Scope string_scope.

Example last_uploaded_backup_not_uploaded :
  sample_last_uploaded_backup
    (sample_resources (Some "2023-11-14T22:13:20Z") (Ok (MkBackupVersion 2))
       (fun _ => false))
  = (Ok None, ["sealvault_backup_v1_ios_1700000000_dev123_2.zip"]).
Proof. reflexivity. Qed.

Lemma last_uploaded_backup_resolves_witness :
  sample_last_uploaded_backup
    (sample_resources (Some "2023-11-14T22:13:20Z") (Ok (MkBackupVersion 2))
       (fun name => name =? "sealvault_backup_v1_ios_1700000000_dev123_2.zip"))
  = (Ok (Some 1700000000), ["sealvault_backup_v1_ios_1700000000_dev123_2.zip"]) /\
  sample_last_uploaded_backup
    (sample_resources None (Err (Fatal "database is locked")) (fun _ => true))
  = (Err (Fatal "database is locked"), []).
Proof.
  split.
  - destruct (last_uploaded_backup_resolves (OperatingSystem := SpecModel.OperatingSystem)
                SpecModel.V1 sample_parse_rfc3339 (fun t => t)
                (sample_resources (Some "2023-11-14T22:13:20Z") (Ok (MkBackupVersion 2))
                   (fun name => name =? "sealvault_backup_v1_ios_1700000000_dev123_2.zip")))
      as [Hok _].
    destruct (Hok {| fetch_backup_timestamp := Ok (Some "2023-11-14T22:13:20Z");
                     fetch_backup_version := Ok (MkBackupVersion 2) |}
                (Some "2023-11-14T22:13:20Z") (MkBackupVersion 2)
                eq_refl eq_refl eq_refl eq_refl) as [_ [Hsome _]].
    unfold sample_last_uploaded_backup.
    rewrite (Hsome "2023-11-14T22:13:20Z" 1700000000 eq_refl eq_refl).
    reflexivity.
  - destruct (last_uploaded_backup_resolves (OperatingSystem := SpecModel.OperatingSystem)
                SpecModel.V1 sample_parse_rfc3339 (fun t => t)
                (sample_resources None (Err (Fatal "database is locked")) (fun _ => true)))
      as [_ [_ [_ [Hver _]]]].
    unfold sample_last_uploaded_backup.
    exact (Hver {| fetch_backup_timestamp := Ok None;
                   fetch_backup_version := Err (Fatal "database is locked") |}
             None (Fatal "database is locked") eq_refl eq_refl eq_refl).
Defined.

(** Claim C3 fails when no timestamp is recorded but the read of the
    version fails: [last_uploaded_backup] returns that error, not [None]. *)
Lemma last_uploaded_backup_version_read_error :
  (exists tx_conn,
     pool_connection (connection_pool
       (sample_resources None (Err (Fatal "database is locked")) (fun _ => false)))
     = Ok tx_conn /\ fetch_backup_timestamp tx_conn = Ok None) /\
  sample_last_uploaded_backup
    (sample_resources None (Err (Fatal "database is locked")) (fun _ => false))
  = (Err (Fatal "database is locked"), []).
Proof. split; [eexists; split; reflexivity|reflexivity]. Qed.

End LastUploadedExamples.

(** ** Entity creation *)

Lemma existsb_false_filter {A : Type} (f : A -> bool) (l : list A) :
  existsb f l = false -> filter f l = [].
Proof.
  induction l as [|x l IH]; cbn; [reflexivity|].
  destruct (f x); [discriminate|exact IH].
Qed.

Lemma existsb_true_filter {A : Type} (f : A -> bool) (l : list A) :
  existsb f l = true -> (1 <= List.length (filter f l))%nat.
Proof.
  induction l as [|x l IH]; cbn; [discriminate|].
  destruct (f x); cbn; [lia|exact IH].
Qed.

Section EntityCreationProofs.

Context (deterministic_id : EntityName -> list string -> result string Error).
Context {Url Origin : Type}.
Context (url_origin : Url -> Origin) (ascii_serialization : Origin -> string)
        (url_value : Url -> string).
Context (registrable_domain : Origin -> result (option string) Error).
Context (db_error : DbError -> Error).
Context (load_profile_pic : string -> result string Error)
        (blake3_hash : string -> string).

(** C7 (amended): a second [Dapp::create_if_not_exists] for the same URL
    returns the same id and leaves the database as the first call left it,
    with one row of that id; a second [AccountPicture::insert_bundled] of
    the same picture is a plain insert of an existing key and fails with
    the database's unique-key error, the table keeping its one row. *)
Theorem entity_creation_repeated (url : Url) (image_name t1 t2 : string) (db : Db) :
  (forall id db1, dapp_create_if_not_exists deterministic_id url_origin ascii_serialization
       url_value registrable_domain url t1 db = (Ok id, db1) ->
     dapp_create_if_not_exists deterministic_id url_origin ascii_serialization
       url_value registrable_domain url t2 db1 = (Ok id, db1) /\
     ((count_dapps id (dapps db) <= 1)%nat -> count_dapps id (dapps db1) = 1%nat)) /\
  (forall id db1, account_picture_insert_bundled deterministic_id db_error load_profile_pic
       blake3_hash image_name t1 db = (Ok id, db1) ->
     count_pictures id (profile_pictures db1) = 1%nat /\
     account_picture_insert_bundled deterministic_id db_error load_profile_pic
       blake3_hash image_name t2 db1
     = (Err (db_error (UniqueViolation "profile_pictures")), db1)).
Proof.
  split.
  - intros id db1. unfold dapp_create_if_not_exists.
    destruct (dapp_entity_new url_origin ascii_serialization url_value
                registrable_domain url) as [entity|e];
      [|intros H; injection H; discriminate].
    unfold dapp_entity_create_if_not_exists.
    destruct (deterministic_id EntityDapp [entity_identifier entity]) as [id0|e];
      [|intros H; injection H; discriminate].
    destruct (existsb _ (dapps db)) eqn:Hex; intros H; inversion H; subst; clear H.
    + rewrite Hex. split; [reflexivity|].
      pose proof (existsb_true_filter _ _ Hex). unfold count_dapps. lia.
    + cbn [dapps existsb dapp_deterministic_id]. rewrite String.eqb_refl.
      split; [reflexivity|]. intros _. unfold count_dapps. cbn [filter].
      rewrite String.eqb_refl, (existsb_false_filter _ _ Hex). reflexivity.
  - intros id db1. unfold account_picture_insert_bundled.
    destruct (load_profile_pic image_name) as [image|e];
      [|intros H; injection H; discriminate].
    unfold account_picture_entity_create. cbn [entity_image_hash].
    destruct (deterministic_id EntityAccountPicture [blake3_hash image]) as [id0|e];
      [|intros H; injection H; discriminate].
    destruct (existsb _ (profile_pictures db)) eqn:Hex;
      intros H; inversion H; subst; clear H.
    cbn [profile_pictures existsb picture_deterministic_id].
    rewrite String.eqb_refl. split; [|reflexivity].
    unfold count_pictures. cbn [filter].
    rewrite String.eqb_refl, (existsb_false_filter _ _ Hex). reflexivity.
Qed.

End EntityCreationProofs.

Section EntityCreationExamples.

Local Open Scope string_scope.

Example dapp_create_twice :
  let '(r1, db1) := sample_create_dapp "example.com" "2023-11-14T22:13:20Z" empty_db in
  let '(r2, db2) := sample_create_dapp "example.com" "2023-11-14T22:13:21Z" db1 in
  r1 = Ok "dapp:example.com" /\ r2 = r1 /\ db2 = db1 /\
  count_dapps "dapp:example.com" (dapps db2) = 1%nat.
Proof. cbn. repeat split. Qed.

(** Claim C7 fails for the account picture: inserting the same bundled
    picture a second time fails with the duplicate-key error. *)
Lemma account_picture_insert_twice_fails :
  let '(r1, db1) := sample_insert_bundled "pug" "2023-11-14T22:13:20Z" empty_db in
  let '(r2, db2) := sample_insert_bundled "pug" "2023-11-14T22:13:21Z" db1 in
  r1 = Ok "picture:image:pug" /\
  r2 = Err (Fatal "UNIQUE constraint failed: profile_pictures.deterministic_id") /\
  count_pictures "picture:image:pug" (profile_pictures db2) = 1%nat.
Proof. cbn. repeat split. Qed.

End EntityCreationExamples.

(** ** The order of [Dapp::list_dapp_ids_desc] *)

Lemma string_compare_lt_trans (a b c : string) :
  String.compare a b = Lt -> String.compare b c = Lt -> String.compare a c = Lt.
Proof.
  revert b c. induction a as [|x a IH]; intros [|y b] [|z c]; cbn; try congruence.
  unfold Ascii.compare.
  destruct (N.compare_spec (N_of_ascii x) (N_of_ascii y)) as [Exy|Exy|Exy];
  destruct (N.compare_spec (N_of_ascii y) (N_of_ascii z)) as [Eyz|Eyz|Eyz];
    try congruence.
  - rewrite Exy, Eyz, N.compare_refl. apply IH.
  - intros _ _. rewrite Exy, (proj2 (N.compare_lt_iff _ _) Eyz). reflexivity.
  - intros _ _. rewrite <- Eyz, (proj2 (N.compare_lt_iff _ _) Exy). reflexivity.
  - intros _ _. assert (Exz : (N_of_ascii x < N_of_ascii z)%N) by lia.
    rewrite (proj2 (N.compare_lt_iff _ _) Exz). reflexivity.
Qed.

Lemma string_compare_eq (a b : string) : String.compare a b = Eq -> a = b.
Proof. apply String.compare_eq_iff. Qed.

Lemma nullable_compare_antisym (a b : option string) :
  nullable_compare a b = CompOpp (nullable_compare b a).
Proof. destruct a, b; cbn; try reflexivity. apply String.compare_antisym. Qed.

Lemma nullable_compare_lt_trans (a b c : option string) :
  nullable_compare a b = Lt -> nullable_compare b c = Lt -> nullable_compare a c = Lt.
Proof. destruct a, b, c; cbn; try congruence. apply string_compare_lt_trans. Qed.

Lemma nullable_compare_eq (a b : option string) : nullable_compare a b = Eq -> a = b.
Proof.
  destruct a, b; cbn; try congruence. intros E. apply string_compare_eq in E. congruence.
Qed.

Lemma dapp_recency_compare_antisym (a b : Dapp) :
  dapp_recency_compare a b = CompOpp (dapp_recency_compare b a).
Proof.
  unfold dapp_recency_compare.
  rewrite (nullable_compare_antisym (dapp_updated_at a)).
  destruct (nullable_compare (dapp_updated_at b) (dapp_updated_at a)); cbn;
    try reflexivity.
  apply String.compare_antisym.
Qed.

Lemma dapp_recency_compare_eq (a b c : Dapp) :
  dapp_recency_compare a b = Eq -> dapp_recency_compare a c = dapp_recency_compare b c.
Proof.
  unfold dapp_recency_compare.
  destruct (nullable_compare (dapp_updated_at a) (dapp_updated_at b)) eqn:E; try discriminate.
  intros E'. apply nullable_compare_eq in E. apply string_compare_eq in E'.
  rewrite E, E'. reflexivity.
Qed.

Lemma string_compare_refl (a : string) : String.compare a a = Eq.
Proof.
  induction a as [|x a IH]; cbn; [reflexivity|].
  unfold Ascii.compare. rewrite N.compare_refl. exact IH.
Qed.

Lemma nullable_compare_refl (a : option string) : nullable_compare a a = Eq.
Proof. destruct a; cbn; [apply string_compare_refl|reflexivity]. Qed.

Lemma dapp_recency_compare_lt_trans (a b c : Dapp) :
  dapp_recency_compare a b = Lt -> dapp_recency_compare b c = Lt ->
  dapp_recency_compare a c = Lt.
Proof.
  unfold dapp_recency_compare.
  destruct (nullable_compare (dapp_updated_at a) (dapp_updated_at b)) eqn:Eab;
  destruct (nullable_compare (dapp_updated_at b) (dapp_updated_at c)) eqn:Ebc;
    try discriminate; intros H1 H2.
  - apply nullable_compare_eq in Eab, Ebc. rewrite Eab, Ebc, nullable_compare_refl.
    exact (string_compare_lt_trans _ _ _ H1 H2).
  - apply nullable_compare_eq in Eab. rewrite Eab, Ebc. reflexivity.
  - apply nullable_compare_eq in Ebc. rewrite <- Ebc, Eab. reflexivity.
  - rewrite (nullable_compare_lt_trans _ _ _ Eab Ebc). reflexivity.
Qed.

Lemma dapp_ge_trans (a b c : Dapp) : dapp_ge a b -> dapp_ge b c -> dapp_ge a c.
Proof.
  unfold dapp_ge. intros Hab Hbc Hac.
  destruct (dapp_recency_compare a b) eqn:Eab; [| congruence |].
  - rewrite (dapp_recency_compare_eq a b c Eab) in Hac. congruence.
  - destruct (dapp_recency_compare b c) eqn:Ebc; [| congruence |].
    + rewrite dapp_recency_compare_antisym, <- (dapp_recency_compare_eq b c a Ebc),
        dapp_recency_compare_antisym in Hac.
      rewrite Eab in Hac. discriminate.
    + rewrite dapp_recency_compare_antisym in Eab, Ebc.
      destruct (dapp_recency_compare b a) eqn:Eba; try discriminate.
      destruct (dapp_recency_compare c b) eqn:Ecb; try discriminate.
      pose proof (dapp_recency_compare_lt_trans c b a Ecb Eba) as Eca.
      rewrite dapp_recency_compare_antisym, Eca in Hac. discriminate.
Qed.

Lemma insert_desc_perm (x : Dapp) (l : list Dapp) : Permutation (x :: l) (insert_desc x l).
Proof.
  induction l as [|y l IH]; cbn; [reflexivity|].
  destruct (dapp_recency_compare x y); try reflexivity.
  rewrite perm_swap. constructor. exact IH.
Qed.

Lemma sort_desc_perm (l : list Dapp) : Permutation l (sort_desc l).
Proof.
  induction l as [|x l IH]; cbn; [reflexivity|].
  rewrite <- insert_desc_perm. constructor. exact IH.
Qed.

Lemma insert_desc_sorted (x : Dapp) (l : list Dapp) :
  StronglySorted dapp_ge l -> StronglySorted dapp_ge (insert_desc x l).
Proof.
  induction l as [|y l IH]; intros Hs; cbn.
  - repeat constructor.
  - inversion Hs as [|? ? Hl Hy]; subst.
    destruct (dapp_recency_compare x y) eqn:Exy.
    + constructor; [exact Hs|]. constructor.
      * unfold dapp_ge. congruence.
      * apply Forall_forall. intros z Hz. apply (dapp_ge_trans x y z);
          [unfold dapp_ge; congruence|]. rewrite Forall_forall in Hy. exact (Hy z Hz).
    + constructor; [exact (IH Hl)|]. apply Forall_forall. intros z Hz.
      apply (Permutation_in _ (Permutation_sym (insert_desc_perm x l))) in Hz.
      destruct Hz as [<-|Hz].
      * unfold dapp_ge. rewrite dapp_recency_compare_antisym, Exy. discriminate.
      * rewrite Forall_forall in Hy. exact (Hy z Hz).
    + constructor; [exact Hs|]. constructor.
      * unfold dapp_ge. congruence.
      * apply Forall_forall. intros z Hz. apply (dapp_ge_trans x y z);
          [unfold dapp_ge; congruence|]. rewrite Forall_forall in Hy. exact (Hy z Hz).
Qed.

Lemma sort_desc_sorted (l : list Dapp) : StronglySorted dapp_ge (sort_desc l).
Proof.
  induction l as [|x l IH]; cbn; [constructor|]. apply insert_desc_sorted. exact IH.
Qed.

Lemma strongly_sorted_app {A : Type} (R : A -> A -> Prop) (a b : list A) :
  StronglySorted R (a ++ b) ->
  StronglySorted R a /\ (forall x y, In x a -> In y b -> R x y).
Proof.
  induction a as [|x a IH]; cbn; intros Hs.
  - split; [constructor|intros _ _ []].
  - inversion Hs as [|? ? Hab Hx]; subst. destruct (IH Hab) as [Ha Hcross].
    rewrite Forall_forall in Hx. split.
    + constructor; [exact Ha|]. apply Forall_forall. intros z Hz. apply Hx.
      apply in_or_app. left. exact Hz.
    + intros x' y [<-|Hx'] Hy; [apply Hx; apply in_or_app; right; exact Hy|].
      exact (Hcross x' y Hx' Hy).
Qed.

(** [Dapp::list_dapp_ids_desc] returns the ids of [min limit n] of the [n]
    stored dapps, ordered by update time, latest first ([NULL] last), then
    by creation time, latest first; no dapp left out is more recent than
    one returned. *)
Theorem list_dapp_ids_desc_top (limit : N) (db : Db) :
  exists out rest,
    Permutation (dapps db) (out ++ rest) /\
    list_dapp_ids_desc limit db = map dapp_deterministic_id out /\
    length out = Nat.min (N.to_nat limit) (length (dapps db)) /\
    Sorted (fun a b => dapp_recency_compare a b <> Lt) out /\
    (forall r d, In r out -> In d rest -> dapp_recency_compare r d <> Lt).
Proof.
  set (k := Z.to_nat (Z.of_N limit)).
  assert (Hk : k = N.to_nat limit) by (subst k; rewrite <- Z_N_nat, N2Z.id; reflexivity).
  exists (firstn k (sort_desc (dapps db))), (skipn k (sort_desc (dapps db))).
  pose proof (sort_desc_sorted (dapps db)) as Hs.
  rewrite <- (firstn_skipn k (sort_desc (dapps db))) in Hs.
  destruct (strongly_sorted_app _ _ _ Hs) as [Hout Hcross].
  split; [rewrite firstn_skipn; apply sort_desc_perm|].
  split; [reflexivity|].
  split; [rewrite length_firstn, <- (Permutation_length (sort_desc_perm (dapps db)));
          rewrite Hk; reflexivity|].
  split; [apply StronglySorted_Sorted; exact Hout|exact Hcross].
Qed.

(** ** Queries and insertions of [dapp.rs] and [account_picture.rs] *)

Lemma existsb_eqb_in {A : Type} (f : A -> string) (id : string) (l : list A) :
  existsb (fun r => String.eqb (f r) id) l = true <-> In id (map f l).
Proof.
  rewrite existsb_exists, in_map_iff. split.
  - intros [x [Hx He]]. apply String.eqb_eq in He. eauto.
  - intros [x [He Hx]]. exists x. split; [exact Hx|]. apply String.eqb_eq; exact He.
Qed.

Lemma existsb_eqb_not_in {A : Type} (f : A -> string) (id : string) (l : list A) :
  existsb (fun r => String.eqb (f r) id) l = false <-> ~ In id (map f l).
Proof.
  rewrite <- existsb_eqb_in. destruct (existsb _ l); split; congruence.
Qed.

Section EntityQueryProofs.

Context (deterministic_id : EntityName -> list string -> result string Error).
Context {Url Origin : Type}.
Context (url_origin : Url -> Origin) (ascii_serialization : Origin -> string)
        (url_value : Url -> string).
Context (registrable_domain : Origin -> result (option string) Error).
Context (db_error : DbError -> Error) (not_found : Error).
Context (load_profile_pic : string -> result string Error)
        (blake3_hash : string -> string).

(** What a successful [Dapp::create_if_not_exists] did. *)
Lemma dapp_create_ok (url : Url) (created_at id : string) (db db' : Db) :
  dapp_create_if_not_exists deterministic_id url_origin ascii_serialization
    url_value registrable_domain url created_at db = (Ok id, db') ->
  exists entity,
    dapp_entity_new url_origin ascii_serialization url_value registrable_domain url
      = Ok entity /\
    deterministic_id EntityDapp [entity_identifier entity] = Ok id /\
    ((In id (map dapp_deterministic_id (dapps db)) /\ db' = db) \/
     (~ In id (map dapp_deterministic_id (dapps db)) /\
      db' = {| dapps := {| dapp_deterministic_id := id;
                           dapp_identifier := entity_identifier entity;
                           dapp_url := entity_url entity;
                           dapp_created_at := created_at;
                           dapp_updated_at := None |} :: dapps db;
               profile_pictures := profile_pictures db |})).
Proof.
  unfold dapp_create_if_not_exists.
  destruct (dapp_entity_new _ _ _ _ url) as [entity|e];
    [|intros H; inversion H].
  unfold dapp_entity_create_if_not_exists.
  destruct (deterministic_id EntityDapp [entity_identifier entity]) as [id0|e] eqn:Hid;
    [|intros H; inversion H].
  destruct (existsb _ (dapps db)) eqn:Hex; intros H; inversion H; subst; clear H;
    exists entity; (split; [reflexivity|split; [exact Hid|]]).
  - left. split; [apply existsb_eqb_in; exact Hex|reflexivity].
  - right. split; [apply existsb_eqb_not_in; exact Hex|reflexivity].
Qed.

(** [Dapp::create_if_not_exists] keeps the invariants of the [dapps]
    table: every id occurs once, and each row's id is the one derived
    from its identifier. *)
Theorem dapp_create_if_not_exists_invariants (url : Url) (created_at : string) (db : Db) :
  dapp_ids_unique db -> dapps_consistent deterministic_id db ->
  let db' := snd (dapp_create_if_not_exists deterministic_id url_origin
                   ascii_serialization url_value registrable_domain url created_at db) in
  dapp_ids_unique db' /\ dapps_consistent deterministic_id db'.
Proof.
  intros Hu Hc db'. subst db'.
  destruct (dapp_create_if_not_exists _ _ _ _ _ url created_at db) as [r db'] eqn:H.
  cbn [snd]. destruct r as [id|e].
  - destruct (dapp_create_ok url created_at id db db' H)
      as [entity [_ [Hid [[_ ->]|[Hnin ->]]]]]; [split; assumption|].
    unfold dapp_ids_unique, dapps_consistent in *; cbn [dapps map].
    split; [constructor; assumption|constructor; [exact Hid|exact Hc]].
  - revert H. unfold dapp_create_if_not_exists.
    destruct (dapp_entity_new _ _ _ _ url) as [entity|e'];
      [|intros H; inversion H; subst; split; assumption].
    unfold dapp_entity_create_if_not_exists.
    destruct (deterministic_id EntityDapp _) as [id0|e'];
      [|intros H; inversion H; subst; split; assumption].
    destruct (existsb _ _); intros H; inversion H.
Qed.

Lemma head_map_filter_consistent (id : string) (rows : list Dapp) (identifier : string) :
  Forall (fun r => deterministic_id EntityDapp [dapp_identifier r]
                   = Ok (dapp_deterministic_id r)) rows ->
  head (map dapp_identifier
          (filter (fun d => String.eqb (dapp_deterministic_id d) id) rows))
    = Some identifier ->
  deterministic_id EntityDapp [identifier] = Ok id.
Proof.
  induction rows as [|r rows IH]; intros Hc H; cbn in H; [discriminate|].
  inversion Hc as [|? ? Hr Hc']; subst.
  destruct (String.eqb (dapp_deterministic_id r) id) eqn:E.
  - cbn in H. inversion H; subst. apply String.eqb_eq in E. rewrite Hr, E. reflexivity.
  - exact (IH Hc' H).
Qed.

Lemma head_map_filter_in {A : Type} (f : A -> string) (g : A -> string) (id : string) (l : list A) :
  In id (map f l) ->
  exists x, head (map g (filter (fun d => String.eqb (f d) id) l)) = Some x.
Proof.
  induction l as [|a l IH]; cbn; [intros []|].
  destruct (String.eqb (f a) id) eqn:E.
  - intros _. cbn. eauto.
  - intros [Ha|Hin]; [|exact (IH Hin)].
    rewrite Ha, String.eqb_refl in E. discriminate.
Qed.

(** Insert, then look up: after [Dapp::create_if_not_exists] returned an
    id, [Dapp::fetch_dapp_identifier] of that id gives what
    [Dapp::dapp_identifier] gives for the URL, provided the stored rows
    carry the ids derived from their identifiers and the derivation does
    not map two identifiers to one id. *)
Theorem dapp_create_then_fetch_identifier (url : Url) (created_at id : string) (db : Db) :
  (forall a b i, deterministic_id EntityDapp [a] = Ok i ->
                 deterministic_id EntityDapp [b] = Ok i -> a = b) ->
  dapps_consistent deterministic_id db ->
  fst (dapp_create_if_not_exists deterministic_id url_origin ascii_serialization
         url_value registrable_domain url created_at db) = Ok id ->
  fetch_dapp_identifier not_found id
    (snd (dapp_create_if_not_exists deterministic_id url_origin ascii_serialization
            url_value registrable_domain url created_at db))
  = Dapp_dapp_identifier url_origin ascii_serialization url_value registrable_domain url.
Proof.
  intros Hinj Hc Hok.
  destruct (dapp_create_if_not_exists _ _ _ _ _ url created_at db) as [r db'] eqn:H.
  cbn [fst] in Hok; subst r; cbn [snd].
  destruct (dapp_create_ok url created_at id db db' H)
    as [entity [Hn [Hid [[Hin ->]|[_ ->]]]]];
    unfold Dapp_dapp_identifier; rewrite Hn.
  - unfold fetch_dapp_identifier.
    destruct (head_map_filter_in dapp_deterministic_id dapp_identifier id (dapps db) Hin)
      as [x Hx].
    rewrite Hx. f_equal.
    apply (Hinj x (entity_identifier entity) id); [|exact Hid].
    exact (head_map_filter_consistent id (dapps db) x Hc Hx).
  - unfold fetch_dapp_identifier. cbn [dapps filter dapp_deterministic_id].
    rewrite String.eqb_refl. reflexivity.
Qed.

(** Two URLs with the same dapp identifier (for instance two hosts of
    one registrable domain) share one row: once
    [Dapp::create_if_not_exists] stored the first, creating the second
    returns the same id and leaves the database unchanged, keeping the
    first URL. *)
Theorem dapp_create_same_identifier (u1 u2 : Url) (t1 t2 id : string) (db db1 : Db) :
  Dapp_dapp_identifier url_origin ascii_serialization url_value registrable_domain u1
  = Dapp_dapp_identifier url_origin ascii_serialization url_value registrable_domain u2 ->
  dapp_create_if_not_exists deterministic_id url_origin ascii_serialization
    url_value registrable_domain u1 t1 db = (Ok id, db1) ->
  dapp_create_if_not_exists deterministic_id url_origin ascii_serialization
    url_value registrable_domain u2 t2 db1 = (Ok id, db1).
Proof.
  intros Hsame H.
  destruct (dapp_create_ok u1 t1 id db db1 H) as [e1 [Hn1 [Hid Hcase]]].
  assert (Hin : In id (map dapp_deterministic_id (dapps db1))).
  { destruct Hcase as [[Hin ->]|[_ ->]]; [exact Hin|left; reflexivity]. }
  unfold Dapp_dapp_identifier in Hsame. rewrite Hn1 in Hsame.
  unfold dapp_create_if_not_exists.
  destruct (dapp_entity_new _ _ _ _ u2) as [e2|e]; [|discriminate].
  inversion Hsame as [Hident].
  unfold dapp_entity_create_if_not_exists.
  rewrite <- Hident, Hid. apply existsb_eqb_in in Hin. rewrite Hin. reflexivity.
Qed.


Lemma head_map_const_filter {A : Type} (f : A -> bool) (l : list A) :
  head (map (fun _ => true) (filter f l)) = if existsb f l then Some true else None.
Proof.
  induction l as [|x l IH]; cbn; [reflexivity|].
  destruct (f x); cbn; [reflexivity|exact IH].
Qed.

Lemma in_list_for_profile (profile_id : string) (keys : list AsymmetricKey) (db : Db) (d : Dapp) :
  In d (list_for_profile profile_id keys db) <->
  exists k, In k keys /\ key_profile_id k = profile_id /\
            In d (dapps db) /\ key_joins_dapp k d = true.
Proof.
  unfold list_for_profile, join_keys_dapps. rewrite in_map_iff. split.
  - intros [[k d'] [Hd Hin]]. cbn [snd] in Hd. subst d'.
    apply filter_In in Hin as [Hin Hp]. apply String.eqb_eq in Hp.
    apply in_flat_map in Hin as [k' [Hk Hin]].
    apply in_map_iff in Hin as [d' [Heq Hin]]. inversion Heq; subst.
    apply filter_In in Hin as [Hin Hj]. eauto 6.
  - intros [k [Hk [Hp [Hd Hj]]]]. exists (k, d). split; [reflexivity|].
    apply filter_In. split; [|apply String.eqb_eq; exact Hp].
    apply in_flat_map. exists k. split; [exact Hk|].
    apply in_map_iff. exists d. split; [reflexivity|]. apply filter_In. auto.
Qed.

(** [Dapp::fetch_id_for_profile] finds the dapp of a URL exactly when the
    profile is stored in [profiles] and [Dapp::list_for_profile] lists a
    dapp with the URL's id; otherwise it answers [None], not an error. *)
Theorem fetch_id_for_profile_listed (url : Url) (entity : DappEntity)
    (profile_id id : string) (keys : list AsymmetricKey) (profiles : list Profile)
    (db : Db) :
  dapp_entity_new url_origin ascii_serialization url_value registrable_domain url
    = Ok entity ->
  deterministic_id EntityDapp [entity_identifier entity] = Ok id ->
  fetch_id_for_profile deterministic_id url_origin ascii_serialization url_value
    registrable_domain url profile_id keys profiles db
  = Ok (if existsb (fun p => String.eqb (profile_deterministic_id p) profile_id) profiles
           && existsb (fun d => String.eqb (dapp_deterministic_id d) id)
                (list_for_profile profile_id keys db)
        then Some id else None).
Proof.
  intros Hn Hid. unfold fetch_id_for_profile. rewrite Hn.
  unfold dapp_entity_fetch_id_for_profile. rewrite Hid. cbv zeta.
  rewrite head_map_const_filter.
  match goal with
  | |- context [if existsb ?f ?rows then Some true else None] =>
      destruct (existsb f rows) eqn:E1
  end;
  match goal with
  | |- _ = Ok (if ?b then _ else _) => destruct b eqn:E2
  end; cbv iota; try reflexivity; exfalso.
  - apply Bool.not_true_iff_false in E2. apply E2.
    apply existsb_exists in E1 as [[[k p] d] [Hin Hsel]].
    apply andb_true_iff in Hsel as [Hp Hd].
    apply in_flat_map in Hin as [[k' p'] [Hkp Hin]].
    apply in_map_iff in Hin as [d' [Heq Hin]]. inversion Heq; subst k' p' d'.
    apply filter_In in Hin as [Hdin Hj].
    apply in_flat_map in Hkp as [k' [Hk Hin]].
    apply in_map_iff in Hin as [p' [Heq' Hin]]. inversion Heq'; subst k' p'.
    apply filter_In in Hin as [Hpin Hkp].
    apply String.eqb_eq in Hp, Hkp. subst.
    apply andb_true_iff. split.
    + apply existsb_exists. exists p. split; [exact Hpin|apply String.eqb_refl].
    + apply existsb_exists. exists d. split; [|exact Hd].
      apply in_list_for_profile. exists k. auto.
  - apply Bool.not_true_iff_false in E1. apply E1.
    apply andb_true_iff in E2 as [Hp Hd].
    apply existsb_exists in Hp as [p [Hpin Hp]].
    apply existsb_exists in Hd as [d [Hdl Hd]].
    apply in_list_for_profile in Hdl as [k [Hk [Hkp [Hdin Hj]]]].
    apply String.eqb_eq in Hp.
    apply existsb_exists. exists (k, p, d). split.
    + apply in_flat_map. exists (k, p). split.
      * apply in_flat_map. exists k. split; [exact Hk|].
        apply in_map_iff. exists p. split; [reflexivity|].
        apply filter_In. split; [exact Hpin|]. apply String.eqb_eq. congruence.
      * apply in_map_iff. exists d. split; [reflexivity|]. apply filter_In. auto.
    + apply andb_true_iff. split; [apply String.eqb_eq; exact Hp|exact Hd].
Qed.

(** Insert, then look up: after [AccountPicture::insert_bundled] returned
    an id, [AccountPicture::fetch_image] of that id gives the image the
    bundled picture was loaded as, and every other id fetches what it
    fetched before. *)
Theorem account_picture_insert_then_fetch (image_name created_at id image : string)
    (db db' : Db) :
  account_picture_insert_bundled deterministic_id db_error load_profile_pic
    blake3_hash image_name created_at db = (Ok id, db') ->
  load_profile_pic image_name = Ok image ->
  fetch_image not_found id db' = Ok image /\
  (forall id', id' <> id -> fetch_image not_found id' db' = fetch_image not_found id' db).
Proof.
  intros H Hl. revert H. unfold account_picture_insert_bundled. rewrite Hl.
  unfold account_picture_entity_create. cbn [entity_image_hash].
  destruct (deterministic_id EntityAccountPicture [blake3_hash image]) as [id0|e];
    [|intros H; inversion H].
  destruct (existsb _ (profile_pictures db)); intros H; inversion H; subst; clear H.
  unfold fetch_image. cbn [profile_pictures filter picture_deterministic_id].
  rewrite String.eqb_refl. split; [reflexivity|].
  intros id' Hne. destruct (String.eqb id id') eqn:E; [|reflexivity].
  apply String.eqb_eq in E. congruence.
Qed.

End EntityQueryProofs.

(** ** Parsing and serialization of [metadata.rs] *)

Lemma deserialize_serialize_i64 (z : Z) :
  in_i64 z -> deserialize (T := Z) (serialize z) = Ok z.
Proof.
  unfold in_i64; intros Hz. unfold serialize, Serialize_i64, deserialize, Deserialize_i64.
  replace ((i64_min <=? z) && (z <=? i64_max)) with true
    by (symmetry; apply andb_true_iff; split; apply Z.leb_le; lia).
  reflexivity.
Qed.

Lemma deserialize_serialize_backup_version (n : Z) :
  0 <= n <= i64_max ->
  deserialize (T := BackupVersion) (serialize (MkBackupVersion n)) = Ok (MkBackupVersion n).
Proof.
  intros Hn.
  unfold serialize, Serialize_BackupVersion, deserialize, Deserialize_BackupVersion;
    cbn [backup_version_value].
  change (deserialize (T := Z) (JNumber n)) with (deserialize (T := Z) (serialize n)).
  rewrite deserialize_serialize_i64 by (unfold in_i64, i64_min, i64_max in *; lia).
  unfold backup_version_try_from.
  replace (n <? 0) with false by (symmetry; apply Z.ltb_ge; lia). reflexivity.
Qed.

(** [BackupVersion]'s [Display] and [FromStr] are inverse: parsing the
    decimal a version displays as gives the version back. *)
Theorem backup_version_display_round_trip (v : BackupVersion) :
  0 <= backup_version_value v <= i64_max ->
  backup_version_from_str (backup_version_to_string v) = Ok v.
Proof.
  intros Hv. destruct v as [n]; cbn [backup_version_value] in Hv.
  unfold backup_version_from_str, backup_version_to_string; cbn [backup_version_value].
  rewrite i64_from_str_to_string by (unfold in_i64, i64_min, i64_max in *; lia).
  unfold backup_version_try_from.
  replace (n <? 0) with false by (symmetry; apply Z.ltb_ge; lia). reflexivity.
Qed.

(** [BackupVersion] through serde: serialized [into = "i64"] and read
    back [try_from = "i64"], a version is unchanged. *)
Theorem backup_version_serde_round_trip (v : BackupVersion) :
  0 <= backup_version_value v <= i64_max ->
  deserialize (T := BackupVersion) (serialize v) = Ok v.
Proof.
  intros Hv. destruct v as [n]; cbn [backup_version_value] in Hv.
  exact (deserialize_serialize_backup_version n Hv).
Qed.

Ltac field_cases H :=
  destruct H as [<-|[<-|[<-|[<-|[<-|[<-|[<-|[]]]]]]]].

Ltac slot_simpl :=
  cbn [slot_filled String.eqb Ascii.eqb Bool.eqb andb orb is_some
       slot_backup_scheme slot_backup_version slot_timestamp slot_device_id
       slot_device_name slot_operating_system slot_kdf_nonce] in *.

Section MetadataFieldProofs.

Context {BackupScheme OperatingSystem DeviceIdentifier DeviceName : Type}.
Context {DS1 : Deserialize BackupScheme} {DS2 : Deserialize OperatingSystem}
        {DS3 : Deserialize DeviceIdentifier} {DS4 : Deserialize DeviceName}.

Lemma visit_field_ok {T : Type} {DT : Deserialize T} (name : string)
    (slot : option T) (v : JValue) (r : option T) :
  visit_field name slot v = Ok r -> slot = None /\ exists x, r = Some x.
Proof.
  unfold visit_field. destruct slot; [discriminate|].
  destruct (deserialize v); intros H; inversion H; eauto.
Qed.

Lemma visit_entry_unknown
    (s : @MetadataSlots BackupScheme OperatingSystem DeviceIdentifier DeviceName)
    (k : string) (v : JValue) :
  existsb (String.eqb k) backup_metadata_fields = false -> visit_entry s k v = Ok s.
Proof.
  intros Hk. cbn [existsb backup_metadata_fields] in Hk.
  repeat rewrite orb_false_iff in Hk.
  destruct Hk as (E1 & E2 & E3 & E4 & E5 & E6 & E7 & _).
  destruct s. unfold visit_entry. rewrite E1, E2, E3, E4, E5, E6, E7. reflexivity.
Qed.

Lemma visit_entry_slots
    (s s' : @MetadataSlots BackupScheme OperatingSystem DeviceIdentifier DeviceName)
    (k : string) (v : JValue) :
  visit_entry s k v = Ok s' ->
  forall k0, In k0 backup_metadata_fields ->
  slot_filled k0 s' = slot_filled k0 s || String.eqb k0 k.
Proof.
  intros H k0 Hk0.
  destruct (existsb (String.eqb k) backup_metadata_fields) eqn:Hk.
  - apply existsb_exists in Hk as [f [Hf Hkf]]. apply String.eqb_eq in Hkf; subst f.
    destruct s as [a b c d e f g].
    field_cases Hf; cbn [visit_entry String.eqb Ascii.eqb Bool.eqb andb] in H;
      (destruct (visit_field _ _ _) as [r|e'] eqn:Hvf in H; [|discriminate]);
      apply visit_field_ok in Hvf as [-> [x ->]]; inversion H; subst;
      field_cases Hk0; slot_simpl; rewrite ?orb_false_r; reflexivity.
  - rewrite visit_entry_unknown in H by exact Hk. inversion H; subst.
    replace (String.eqb k0 k) with false; [destruct (slot_filled k0 s'); reflexivity|].
    symmetry. apply Bool.not_true_iff_false. intros E. apply String.eqb_eq in E.
    apply Bool.not_true_iff_false in Hk. apply Hk.
    apply existsb_exists. exists k0. split; [exact Hk0|apply String.eqb_eq; symmetry; exact E].
Qed.

Lemma visit_entry_filled
    (s : @MetadataSlots BackupScheme OperatingSystem DeviceIdentifier DeviceName)
    (k : string) (v : JValue) :
  In k backup_metadata_fields -> slot_filled k s = true ->
  visit_entry s k v = Err (DeDuplicateField k).
Proof.
  intros Hk Hf. destruct s as [a b c d e f g].
  field_cases Hk; slot_simpl; cbn [visit_entry String.eqb Ascii.eqb Bool.eqb andb];
    unfold visit_field;
    match goal with
    | H : is_some ?o = true |- _ => destruct o; [reflexivity|discriminate]
    end.
Qed.

Lemma visit_entries_slots
    (s s' : @MetadataSlots BackupScheme OperatingSystem DeviceIdentifier DeviceName)
    (l : list (string * JValue)) :
  visit_entries s l = Ok s' ->
  forall k0, In k0 backup_metadata_fields ->
  slot_filled k0 s' = slot_filled k0 s || existsb (String.eqb k0) (map fst l).
Proof.
  revert s. induction l as [|[k v] l IH]; intros s H k0 Hk0; cbn [visit_entries] in H.
  - inversion H; subst. cbn. destruct (slot_filled k0 s'); reflexivity.
  - destruct (visit_entry s k v) as [s1|e] eqn:E; [|discriminate].
    rewrite (IH s1 H k0 Hk0), (visit_entry_slots s s1 k v E k0 Hk0).
    cbn [map fst existsb]. rewrite orb_assoc. reflexivity.
Qed.

Lemma visit_entries_filled
    (s : @MetadataSlots BackupScheme OperatingSystem DeviceIdentifier DeviceName)
    (l : list (string * JValue)) (k : string) :
  In k backup_metadata_fields -> slot_filled k s = true -> In k (map fst l) ->
  exists e, visit_entries s l = Err e.
Proof.
  revert s. induction l as [|[k' v] l IH]; intros s Hk Hf Hin; [destruct Hin|].
  cbn [visit_entries]. destruct (String.eqb k' k) eqn:E.
  - apply String.eqb_eq in E; subst k'. rewrite (visit_entry_filled s k v Hk Hf).
    eexists; reflexivity.
  - destruct Hin as [Hin|Hin]; [cbn in Hin; subst k'; rewrite String.eqb_refl in E; discriminate|].
    destruct (visit_entry s k' v) as [s1|e] eqn:Ev; [|eexists; reflexivity].
    apply (IH s1 Hk); [|exact Hin].
    rewrite (visit_entry_slots s s1 k' v Ev k Hk), Hf. reflexivity.
Qed.

Lemma visit_entries_duplicate
    (s : @MetadataSlots BackupScheme OperatingSystem DeviceIdentifier DeviceName)
    (l : list (string * JValue)) (k : string) :
  In k backup_metadata_fields -> (2 <= count_occ string_dec (map fst l) k)%nat ->
  exists e, visit_entries s l = Err e.
Proof.
  revert s. induction l as [|[k' v] l IH]; intros s Hk Hc; [cbn in Hc; lia|].
  cbn [visit_entries].
  destruct (visit_entry s k' v) as [s1|e] eqn:Ev; [|eexists; reflexivity].
  cbn [map fst count_occ] in Hc. destruct (string_dec k' k) as [->|Hne].
  - apply (visit_entries_filled s1 l k Hk).
    + rewrite (visit_entry_slots s s1 k v Ev k Hk), String.eqb_refl, orb_true_r.
      reflexivity.
    + apply (count_occ_In string_dec). lia.
  - exact (IH s1 Hk Hc).
Qed.

Lemma visit_entries_known
    (s : @MetadataSlots BackupScheme OperatingSystem DeviceIdentifier DeviceName)
    (l : list (string * JValue)) :
  visit_entries s l
  = visit_entries s (filter (fun '(k, _) => existsb (String.eqb k) backup_metadata_fields) l).
Proof.
  revert s. induction l as [|[k v] l IH]; intros s; [reflexivity|].
  cbn [filter visit_entries].
  destruct (existsb (String.eqb k) backup_metadata_fields) eqn:Hk.
  - cbn [visit_entries]. destruct (visit_entry s k v); [apply IH|reflexivity].
  - rewrite (visit_entry_unknown s k v Hk). apply IH.
Qed.

End MetadataFieldProofs.

Section MetadataFieldTheorems.

Context {BackupScheme OperatingSystem DeviceIdentifier DeviceName : Type}.
Context {DS1 : Deserialize BackupScheme} {DS2 : Deserialize OperatingSystem}
        {DS3 : Deserialize DeviceIdentifier} {DS4 : Deserialize DeviceName}.

(** Keys of a JSON object that are not fields of [BackupMetadata] are
    ignored wherever they occur: deserializing the object gives what
    deserializing it without them gives. *)
Theorem deserialize_backup_metadata_ignores_unknown_keys
    (entries : list (string * JValue)) :
  deserialize_backup_metadata
    (BackupScheme := BackupScheme) (OperatingSystem := OperatingSystem)
    (DeviceIdentifier := DeviceIdentifier) (DeviceName := DeviceName)
    (JObject entries)
  = deserialize_backup_metadata
      (JObject (filter (fun '(k, _) => existsb (String.eqb k) backup_metadata_fields)
                       entries)).
Proof.
  unfold deserialize_backup_metadata, visit_map. rewrite <- visit_entries_known.
  reflexivity.
Qed.

(** A JSON object that names a field of [BackupMetadata] twice is
    refused. *)
Theorem deserialize_backup_metadata_duplicate_field
    (entries : list (string * JValue)) (k : string) :
  In k backup_metadata_fields ->
  (2 <= count_occ string_dec (map fst entries) k)%nat ->
  exists e, deserialize_backup_metadata
              (BackupScheme := BackupScheme) (OperatingSystem := OperatingSystem)
              (DeviceIdentifier := DeviceIdentifier) (DeviceName := DeviceName)
              (JObject entries) = Err e.
Proof.
  intros Hk Hc. unfold deserialize_backup_metadata, visit_map.
  destruct (visit_entries_duplicate
              (BackupScheme := BackupScheme) (OperatingSystem := OperatingSystem)
              (DeviceIdentifier := DeviceIdentifier) (DeviceName := DeviceName)
              empty_slots entries k Hk Hc) as [e He].
  rewrite He. eexists; reflexivity.
Qed.

(** When every field present in a JSON object reads back, a missing field
    is reported: the error names the first field, in declaration order,
    that the object lacks. *)
Theorem deserialize_backup_metadata_missing_field
    (entries : list (string * JValue))
    (s : @MetadataSlots BackupScheme OperatingSystem DeviceIdentifier DeviceName)
    (f : string) :
  visit_entries empty_slots entries = Ok s ->
  find (fun field => negb (existsb (String.eqb field) (map fst entries)))
    backup_metadata_fields = Some f ->
  deserialize_backup_metadata
    (BackupScheme := BackupScheme) (OperatingSystem := OperatingSystem)
    (DeviceIdentifier := DeviceIdentifier) (DeviceName := DeviceName)
    (JObject entries) = Err (DeMissingField f).
Proof.
  intros Hs Hf.
  assert (Hslot : forall k0, In k0 backup_metadata_fields ->
            slot_filled k0 s = existsb (String.eqb k0) (map fst entries)).
  { intros k0 Hk0. rewrite (visit_entries_slots _ _ _ Hs k0 Hk0).
    field_cases Hk0; reflexivity. }
  unfold deserialize_backup_metadata, visit_map. rewrite Hs.
  cbn [find backup_metadata_fields] in Hf.
  rewrite <- !Hslot in Hf by (cbn; tauto).
  destruct s as [a b c d e g h]. slot_simpl.
  unfold required.
  destruct a; cbn [is_some negb] in Hf; [|inversion Hf; reflexivity].
  destruct b; cbn [is_some negb] in Hf; [|inversion Hf; reflexivity].
  destruct c; cbn [is_some negb] in Hf; [|inversion Hf; reflexivity].
  destruct d; cbn [is_some negb] in Hf; [|inversion Hf; reflexivity].
  destruct e; cbn [is_some negb] in Hf; [|inversion Hf; reflexivity].
  destruct g; cbn [is_some negb] in Hf; [|inversion Hf; reflexivity].
  destruct h; cbn [is_some negb] in Hf; [|inversion Hf; reflexivity].
  discriminate.
Qed.

End MetadataFieldTheorems.

Section MetadataSerdeRoundTrip.

Context {BackupScheme OperatingSystem DeviceIdentifier DeviceName : Type}.
Context `{Serialize BackupScheme} `{Serialize OperatingSystem}
        `{Serialize DeviceIdentifier} `{Serialize DeviceName}.
Context `{Deserialize BackupScheme} `{Deserialize OperatingSystem}
        `{Deserialize DeviceIdentifier} `{Deserialize DeviceName}.

(** The derived [Serialize] and [Deserialize] of [BackupMetadata] are
    inverse: when the scheme, OS, device id and device name each read back
    what they wrote, and the timestamp and version are [i64] values (the
    version non-negative, as [BackupVersion] keeps it), deserializing the
    serialized metadata gives it back. *)
Theorem backup_metadata_serde_round_trip
    (m : @BackupMetadata BackupScheme OperatingSystem DeviceIdentifier DeviceName) :
  (forall x : BackupScheme, deserialize (serialize x) = Ok x) ->
  (forall x : OperatingSystem, deserialize (serialize x) = Ok x) ->
  (forall x : DeviceIdentifier, deserialize (serialize x) = Ok x) ->
  (forall x : DeviceName, deserialize (serialize x) = Ok x) ->
  in_i64 (timestamp m) ->
  0 <= backup_version_value (backup_version m) <= i64_max ->
  deserialize_backup_metadata (serialize_backup_metadata m) = Ok m.
Proof.
  intros R1 R2 R3 R4 Hts Hv.
  destruct m as [sch [n] ts dev name os nonce];
    cbn [backup_scheme backup_version timestamp device_id device_name
         operating_system kdf_nonce backup_version_value] in *.
  unfold deserialize_backup_metadata, serialize_backup_metadata, visit_map;
    cbn [backup_scheme backup_version timestamp device_id device_name
         operating_system kdf_nonce].
  cbn [visit_entries empty_slots visit_entry].
  assert (Hver : deserialize (T := BackupVersion) (serialize (MkBackupVersion n))
                 = Ok (MkBackupVersion n))
    by exact (deserialize_serialize_backup_version n Hv).
  assert (Hts' : deserialize (T := Z) (serialize ts) = Ok ts)
    by exact (deserialize_serialize_i64 ts Hts).
  assert (Hno : deserialize (T := string) (serialize nonce) = Ok nonce) by reflexivity.
  repeat progress (cbn [visit_entry String.eqb Ascii.eqb Bool.eqb andb visit_field];
                   rewrite ?R1, ?R2, ?R3, ?R4, ?Hver, ?Hts', ?Hno).
  reflexivity.
Qed.

(** [BackupMetadata::canonical_json] fails only with its one error, and
    exactly when the scheme, OS, device id or device name serializes to
    something the canonical formatter refuses (a value holding a float);
    the version, timestamp and nonce never make it fail. *)
Theorem canonical_json_error
    (m : @BackupMetadata BackupScheme OperatingSystem DeviceIdentifier DeviceName) :
  (forall e, canonical_json m = Err e ->
             e = Fatal "Failed to serialize backup metadata."%string) /\
  ((exists out, canonical_json m = Ok out) <->
   (write_canonical (serialize (backup_scheme m)) <> None /\
    write_canonical (serialize (operating_system m)) <> None /\
    write_canonical (serialize (device_id m)) <> None /\
    write_canonical (serialize (device_name m)) <> None)).
Proof.
  unfold canonical_json, serialize_backup_metadata.
  cbn [write_canonical serialize Serialize_BackupVersion Serialize_i64 Serialize_string].
  destruct (write_canonical (serialize (backup_scheme m)));
  destruct (write_canonical (serialize (operating_system m)));
  destruct (write_canonical (serialize (device_id m)));
  destruct (write_canonical (serialize (device_name m)));
  cbn [option_map];
  (split; [intros e He; inversion He; reflexivity|]);
  split; try (intros [out Hout]; discriminate);
  try (intros (W1 & W2 & W3 & W4); exfalso;
       first [apply W1; reflexivity|apply W2; reflexivity
             |apply W3; reflexivity|apply W4; reflexivity]);
  intros _; try (repeat split; discriminate); eexists; reflexivity.
Qed.

End MetadataSerdeRoundTrip.

Section LastUploadedFileName.

Local Open Scope string_scope.

Context {BackupScheme OperatingSystem DeviceIdentifier : Type}.
Context `{Display BackupScheme}.
Context `{Display OperatingSystem} `{FromStr OperatingSystem}
        `{!FromError (FromStrErr OperatingSystem)} `{Default OperatingSystem}.
Context `{Display DeviceIdentifier} `{FromStr DeviceIdentifier}
        `{!FromError (FromStrErr DeviceIdentifier)}.
Context `{!FromError ParseIntError}.
Context (V1 : BackupScheme).
Context {DateTime : Type}.
Context (parse_rfc3339_timestamp : string -> result DateTime Error).
Context (datetime_timestamp : DateTime -> Z).

(** [MetadataFromFileName::from_str] reads back a name built by
    [get_backup_file_name] from valid parts. *)
Lemma get_backup_file_name_parse (scheme : BackupScheme) (os : OperatingSystem)
    (ts : Z) (dev : DeviceIdentifier) (v : BackupVersion) :
  0 <= ts <= i64_max ->
  0 <= backup_version_value v <= i64_max ->
  plus is_name_char (display scheme) = true ->
  plus is_name_char (display os) = true ->
  from_str (display os) = Ok os ->
  plus is_name_char (display dev) = true ->
  from_str (display dev) = Ok dev ->
  metadata_from_file_name (OperatingSystem := OperatingSystem)
    (DeviceIdentifier := DeviceIdentifier) (get_backup_file_name scheme os ts dev v)
  = Ok {| mf_timestamp := ts; mf_os := os; mf_device_id := dev;
          mf_backup_version := v |}.
Proof.
  intros Hts Hv Hs Ho Hop Hd Hdp. destruct v as [n]; cbn [backup_version_value] in Hv.
  unfold metadata_from_file_name, get_backup_file_name.
  assert (Hts' : plus_decimal (i64_to_string ts) = true)
    by (apply plus_ascii_digit_decimal, i64_to_string_nonneg; lia).
  assert (Hv' : plus_decimal (i64_to_string n) = true)
    by (apply plus_ascii_digit_decimal, i64_to_string_nonneg; lia).
  unfold display at 3 5, Display_i64, Display_BackupVersion,
    backup_version_to_string; cbn [backup_version_value].
  rewrite captures_of_parts by auto using plus_name_not_underscore,
    plus_decimal_not_underscore.
  rewrite Hs, Ho, Hts', Hd, Hv'; cbn [andb].
  unfold parse_field_from_backup_file_name.
  rewrite captures_name_timestamp, captures_name_os, captures_name_device_id,
    captures_name_version;
    cbn [cap_timestamp cap_os cap_device_id cap_version].
  rewrite from_str_i64, i64_from_str_to_string
    by (unfold in_i64, i64_min, i64_max in *; lia).
  rewrite Hop, Hdp, from_str_backup_version.
  unfold backup_version_from_str.
  rewrite i64_from_str_to_string by (unfold in_i64, i64_min, i64_max in *; lia).
  unfold backup_version_try_from.
  replace (n <? 0)%Z with false by (symmetry; apply Z.ltb_ge; lia).
  reflexivity.
Qed.

(** Whenever [last_uploaded_backup] asks the backup storage about a file
    name, the settings held a version and a timestamp that parsed as
    RFC3339, the answer is [Some] of that unix time exactly when the
    storage has the name, and the name is one that
    [MetadataFromFileName::from_str] reads back as the default OS, the
    device id of the resources, that version and that time, when the time
    and the version are non-negative [i64] values and the scheme, OS and
    device id display as name tokens that their parsers read back. *)
Theorem last_uploaded_backup_file_name_parses
    (resources : @CoreResources DeviceIdentifier) (name : string) :
  plus is_name_char (display V1) = true ->
  plus is_name_char (display (default (T := OperatingSystem))) = true ->
  from_str (display (default (T := OperatingSystem))) = Ok (default (T := OperatingSystem)) ->
  plus is_name_char (display (resources_device_id resources)) = true ->
  from_str (display (resources_device_id resources)) = Ok (resources_device_id resources) ->
  snd (last_uploaded_backup (OperatingSystem := OperatingSystem) V1
         parse_rfc3339_timestamp datetime_timestamp resources) = [name] ->
  exists datestamp datetime version,
    deferred_transaction (connection_pool resources) fetch_backup_state
      = Ok (version, Some datestamp) /\
    parse_rfc3339_timestamp datestamp = Ok datetime /\
    fst (last_uploaded_backup (OperatingSystem := OperatingSystem) V1
           parse_rfc3339_timestamp datetime_timestamp resources)
      = (if is_uploaded resources name then Ok (Some (datetime_timestamp datetime))
         else Ok None) /\
    (0 <= datetime_timestamp datetime <= i64_max ->
     0 <= backup_version_value version <= i64_max ->
     metadata_from_file_name (OperatingSystem := OperatingSystem)
       (DeviceIdentifier := DeviceIdentifier) name
     = Ok {| mf_timestamp := datetime_timestamp datetime;
             mf_os := default (T := OperatingSystem);
             mf_device_id := resources_device_id resources;
             mf_backup_version := version |}).
Proof.
  intros Hs Ho Hop Hd Hdp Hq.
  unfold last_uploaded_backup in *.
  destruct (deferred_transaction (connection_pool resources) fetch_backup_state)
    as [[version [datestamp|]]|e] eqn:Htx; cbn [snd] in Hq; try discriminate.
  destruct (parse_rfc3339_timestamp datestamp) as [datetime|e] eqn:Hp;
    cbn [snd] in Hq; [|discriminate].
  inversion Hq as [Hname]. clear Hq.
  exists datestamp, datetime, version.
  split; [reflexivity|]. split; [exact Hp|]. subst name. split; [reflexivity|].
  intros Hts Hv. apply get_backup_file_name_parse; assumption.
Qed.

(** With the dev server's [CoreBackupStorageMock], which never has a
    file, [last_uploaded_backup] never reports an uploaded backup: it
    returns [None] or an error. *)
Theorem last_uploaded_backup_storage_mock (pool : ConnectionPool)
    (device_id : DeviceIdentifier) :
  let r := fst (last_uploaded_backup (OperatingSystem := OperatingSystem) V1
                  parse_rfc3339_timestamp datetime_timestamp
                  {| connection_pool := pool; resources_device_id := device_id;
                     is_uploaded := backup_storage_mock_is_uploaded |}) in
  r = Ok None \/ exists e, r = Err e.
Proof.
  cbv zeta. unfold last_uploaded_backup.
  destruct (deferred_transaction _ _) as [[version [datestamp|]]|e];
    [|left; reflexivity|right; eexists; reflexivity].
  destruct (parse_rfc3339_timestamp datestamp) as [datetime|e];
    [left; reflexivity|right; eexists; reflexivity].
Qed.

End LastUploadedFileName.

(** ** Queries and insertions on concrete inputs *)

Section EntityQueryExamples.

Local Open Scope string_scope.

(** The sample derivation of dapp ids keeps the identifier apart. *)
Lemma sample_deterministic_id_dapp_injective (a b i : string) :
  sample_deterministic_id EntityDapp [a] = Ok i ->
  sample_deterministic_id EntityDapp [b] = Ok i -> a = b.
Proof.
  unfold sample_deterministic_id. intros Ha Hb. rewrite <- Hb in Ha.
  cbn in Ha. repeat injection Ha as Ha. exact Ha.
Qed.

Lemma sample_dapps_db_unique : dapp_ids_unique sample_dapps_db.
Proof.
  unfold dapp_ids_unique. cbn.
  constructor; [cbn; intros [Hc|[]]; discriminate|].
  constructor; [intros []|constructor].
Qed.

Lemma sample_dapps_db_consistent :
  dapps_consistent sample_deterministic_id sample_dapps_db.
Proof. unfold dapps_consistent. cbn. repeat constructor. Qed.

Lemma dapp_create_if_not_exists_invariants_witness :
  (dapp_ids_unique sample_dapps_db /\
   dapps_consistent sample_deterministic_id sample_dapps_db /\
   snd (sample_create_dapp "https://example.com" "2023-11-14T22:13:20Z" sample_dapps_db)
   = sample_dapps_db /\
   dapp_ids_unique
     (snd (sample_create_dapp "https://example.com" "2023-11-14T22:13:20Z" sample_dapps_db)) /\
   dapps_consistent sample_deterministic_id
     (snd (sample_create_dapp "https://example.com" "2023-11-14T22:13:20Z" sample_dapps_db))) /\
  (length (dapps (snd (sample_create_dapp "https://new.io" "2023-11-14T22:13:20Z"
                         sample_dapps_db))) = 3%nat /\
   dapp_ids_unique
     (snd (sample_create_dapp "https://new.io" "2023-11-14T22:13:20Z" sample_dapps_db)) /\
   dapps_consistent sample_deterministic_id
     (snd (sample_create_dapp "https://new.io" "2023-11-14T22:13:20Z" sample_dapps_db))).
Proof.
  split.
  - split; [exact sample_dapps_db_unique|].
    split; [exact sample_dapps_db_consistent|].
    split; [reflexivity|].
    exact (dapp_create_if_not_exists_invariants sample_deterministic_id
             (Url := string) (Origin := string) (fun u => u) (fun o => o) (fun u => u)
             (fun o => Ok (Some o)) "https://example.com" "2023-11-14T22:13:20Z"
             sample_dapps_db sample_dapps_db_unique sample_dapps_db_consistent).
  - split; [reflexivity|].
    exact (dapp_create_if_not_exists_invariants sample_deterministic_id
             (Url := string) (Origin := string) (fun u => u) (fun o => o) (fun u => u)
             (fun o => Ok (Some o)) "https://new.io" "2023-11-14T22:13:20Z"
             sample_dapps_db sample_dapps_db_unique sample_dapps_db_consistent).
Defined.

Lemma dapp_create_then_fetch_identifier_witness :
  sample_create_dapp "https://example.com" "2023-11-14T22:13:20Z" sample_dapps_db
  = (Ok "dapp:https://example.com", sample_dapps_db) /\
  fetch_dapp_identifier (Fatal "Record not found") "dapp:https://example.com"
    (snd (sample_create_dapp "https://example.com" "2023-11-14T22:13:20Z" sample_dapps_db))
  = Ok "https://example.com".
Proof.
  split; [reflexivity|].
  exact (dapp_create_then_fetch_identifier sample_deterministic_id
           (Url := string) (Origin := string) (fun u => u) (fun o => o) (fun u => u)
           (fun o => Ok (Some o)) (Fatal "Record not found")
           "https://example.com" "2023-11-14T22:13:20Z" "dapp:https://example.com"
           sample_dapps_db sample_deterministic_id_dapp_injective
           sample_dapps_db_consistent eq_refl).
Defined.

Lemma dapp_create_same_identifier_witness :
  dapp_create_if_not_exists (Url := string) (Origin := string)
    sample_deterministic_id (fun u => u) (fun o => o) (fun u => u)
    (fun _ => Ok (Some "example.com")) "https://app.example.com" "2023-11-15T08:00:00Z"
    (snd (dapp_create_if_not_exists (Url := string) (Origin := string)
            sample_deterministic_id (fun u => u) (fun o => o) (fun u => u)
            (fun _ => Ok (Some "example.com")) "https://www.example.com"
            "2023-11-14T22:13:20Z" empty_db))
  = (Ok "dapp:example.com",
     snd (dapp_create_if_not_exists (Url := string) (Origin := string)
            sample_deterministic_id (fun u => u) (fun o => o) (fun u => u)
            (fun _ => Ok (Some "example.com")) "https://www.example.com"
            "2023-11-14T22:13:20Z" empty_db)).
Proof.
  exact (dapp_create_same_identifier sample_deterministic_id
           (Url := string) (Origin := string) (fun u => u) (fun o => o) (fun u => u)
           (fun _ => Ok (Some "example.com"))
           "https://www.example.com" "https://app.example.com"
           "2023-11-14T22:13:20Z" "2023-11-15T08:00:00Z" "dapp:example.com" empty_db
           (snd (dapp_create_if_not_exists (Url := string) (Origin := string)
                   sample_deterministic_id (fun u => u) (fun o => o) (fun u => u)
                   (fun _ => Ok (Some "example.com")) "https://www.example.com"
                   "2023-11-14T22:13:20Z" empty_db))
           eq_refl eq_refl).
Defined.

Lemma fetch_id_for_profile_listed_witness :
  fetch_id_for_profile sample_deterministic_id (Url := string) (Origin := string)
    (fun u => u) (fun o => o) (fun u => u) (fun o => Ok (Some o))
    "https://example.com" "profile:1"
    [{| key_profile_id := "profile:1"; key_dapp_id := Some "dapp:https://example.com" |}]
    [{| profile_deterministic_id := "profile:1" |}]
    (snd (sample_create_dapp "https://example.com" "2023-11-14T22:13:20Z" empty_db))
  = Ok (Some "dapp:https://example.com").
Proof.
  exact (fetch_id_for_profile_listed sample_deterministic_id
           (Url := string) (Origin := string) (fun u => u) (fun o => o) (fun u => u)
           (fun o => Ok (Some o)) "https://example.com"
           {| entity_identifier := "https://example.com";
              entity_url := "https://example.com" |}
           "profile:1" "dapp:https://example.com"
           [{| key_profile_id := "profile:1";
               key_dapp_id := Some "dapp:https://example.com" |}]
           [{| profile_deterministic_id := "profile:1" |}]
           (snd (sample_create_dapp "https://example.com" "2023-11-14T22:13:20Z" empty_db))
           eq_refl eq_refl).
Defined.

Lemma account_picture_insert_then_fetch_witness :
  fetch_image (Fatal "Record not found") "picture:image:pug"
    (snd (sample_insert_bundled "pug" "2023-11-14T22:13:20Z" empty_db))
  = Ok "image:pug" /\
  (forall id', id' <> "picture:image:pug" ->
   fetch_image (Fatal "Record not found") id'
     (snd (sample_insert_bundled "pug" "2023-11-14T22:13:20Z" empty_db))
   = fetch_image (Fatal "Record not found") id' empty_db).
Proof.
  exact (account_picture_insert_then_fetch sample_deterministic_id sample_db_error
           (Fatal "Record not found") (fun name => Ok ("image:" ++ name))
           (fun image => image) "pug" "2023-11-14T22:13:20Z" "picture:image:pug"
           "image:pug" empty_db
           (snd (sample_insert_bundled "pug" "2023-11-14T22:13:20Z" empty_db))
           eq_refl eq_refl).
Defined.

End EntityQueryExamples.

(** ** Parsing and serialization on concrete inputs *)

Section MetadataExamples.

Local Open Scope string_scope.

Lemma backup_version_display_round_trip_witness :
  backup_version_from_str (backup_version_to_string (MkBackupVersion 3))
  = Ok (MkBackupVersion 3).
Proof.
  apply (backup_version_display_round_trip (MkBackupVersion 3)).
  cbn. unfold i64_max. lia.
Defined.

Lemma backup_version_serde_round_trip_witness :
  deserialize (T := BackupVersion) (serialize (MkBackupVersion 3))
  = Ok (MkBackupVersion 3).
Proof.
  apply (backup_version_serde_round_trip (MkBackupVersion 3)).
  cbn. unfold i64_max. lia.
Defined.

Lemma deserialize_backup_metadata_duplicate_field_witness :
  exists e,
    deserialize_backup_metadata
      (BackupScheme := SpecModel.BackupScheme)
      (OperatingSystem := SpecModel.OperatingSystem)
      (DeviceIdentifier := SpecModel.DeviceIdentifier)
      (DeviceName := SpecModel.DeviceName)
      (JObject [("timestamp", JNumber 1700000000); ("kdf_nonce", JString "bm9uY2U=");
                ("timestamp", JNumber 1700000001)])
    = Err e.
Proof.
  apply (deserialize_backup_metadata_duplicate_field
           (BackupScheme := SpecModel.BackupScheme)
           (OperatingSystem := SpecModel.OperatingSystem)
           (DeviceIdentifier := SpecModel.DeviceIdentifier)
           (DeviceName := SpecModel.DeviceName)
           [("timestamp", JNumber 1700000000); ("kdf_nonce", JString "bm9uY2U=");
            ("timestamp", JNumber 1700000001)] "timestamp").
  - right; right; left; reflexivity.
  - apply Nat.leb_le. vm_compute. reflexivity.
Defined.

Lemma deserialize_backup_metadata_missing_field_witness :
  deserialize_backup_metadata
    (BackupScheme := SpecModel.BackupScheme)
    (OperatingSystem := SpecModel.OperatingSystem)
    (DeviceIdentifier := SpecModel.DeviceIdentifier)
    (DeviceName := SpecModel.DeviceName)
    (JObject [("backup_scheme", JString "v1"); ("backup_version", JNumber 3);
              ("timestamp", JNumber 1700000000); ("device_id", JString "dev123");
              ("operating_system", JString "ios"); ("kdf_nonce", JString "bm9uY2U=")])
  = Err (DeMissingField "device_name").
Proof.
  eapply (deserialize_backup_metadata_missing_field
            (BackupScheme := SpecModel.BackupScheme)
            (OperatingSystem := SpecModel.OperatingSystem)
            (DeviceIdentifier := SpecModel.DeviceIdentifier)
            (DeviceName := SpecModel.DeviceName)
            [("backup_scheme", JString "v1"); ("backup_version", JNumber 3);
             ("timestamp", JNumber 1700000000); ("device_id", JString "dev123");
             ("operating_system", JString "ios"); ("kdf_nonce", JString "bm9uY2U=")]
            _ "device_name").
  - reflexivity.
  - reflexivity.
Defined.

Lemma backup_metadata_serde_round_trip_witness :
  deserialize_backup_metadata (serialize_backup_metadata (sample_metadata 1700000000))
  = Ok (sample_metadata 1700000000).
Proof.
  apply (backup_metadata_serde_round_trip (sample_metadata 1700000000)).
  - intros []; reflexivity.
  - intros []; reflexivity.
  - intros [x]; reflexivity.
  - intros [x]; reflexivity.
  - cbn. unfold in_i64, i64_min, i64_max. lia.
  - cbn. unfold i64_max. lia.
Defined.

End MetadataExamples.

Section LastUploadedFileNameExamples.

Local Open Scope string_scope.

Lemma last_uploaded_backup_file_name_parses_witness :
  exists datestamp datetime version,
    deferred_transaction
      (connection_pool
         (sample_resources (Some "2023-11-14T22:13:20Z") (Ok (MkBackupVersion 2))
            (fun _ => false)))
      fetch_backup_state
    = Ok (version, Some datestamp) /\
    sample_parse_rfc3339 datestamp = Ok datetime /\
    fst (sample_last_uploaded_backup
           (sample_resources (Some "2023-11-14T22:13:20Z") (Ok (MkBackupVersion 2))
              (fun _ => false)))
    = Ok None /\
    (0 <= datetime <= i64_max ->
     0 <= backup_version_value version <= i64_max ->
     parse_backup_file_name "sealvault_backup_v1_ios_1700000000_dev123_2.zip"
     = Ok {| mf_timestamp := datetime;
             mf_os := SpecModel.Ios;
             mf_device_id := {| SpecModel.device_identifier := "dev123" |};
             mf_backup_version := version |}).
Proof.
  exact (last_uploaded_backup_file_name_parses
           (OperatingSystem := SpecModel.OperatingSystem)
           (DeviceIdentifier := SpecModel.DeviceIdentifier)
           SpecModel.V1 sample_parse_rfc3339 (fun t => t)
           (sample_resources (Some "2023-11-14T22:13:20Z") (Ok (MkBackupVersion 2))
              (fun _ => false))
           "sealvault_backup_v1_ios_1700000000_dev123_2.zip"
           eq_refl eq_refl eq_refl eq_refl eq_refl eq_refl).
Defined.

End LastUploadedFileNameExamples.
